(** * lvm2go: execution configuration, command construction and option rendering

    A shallow embedding of the Go package [lvm2go]:
    - the context-carried execution configuration (wait delay, default
      volume group, custom environment, force-no-nsenter),
    - containerization detection and [CommandContext],
    - the [noNsenterClient] decorator,
    - [CommonOptions], [RequestConfirm], [Verbose] and the [vgreduce]
      option list.

    Go values are modelled as follows: [string] as [string], [bool] as
    [bool], [time.Duration] (an int64 count of nanoseconds) as [Z], slices
    as lists ([nil] and the empty slice are both [[]]), [error] as
    [option string] with [None] for [nil], and code that mutates package
    variables or an [Arguments] object by explicit state passing. *)

From Stdlib Require Import String Ascii List ZArith Bool Lia Permutation.
Import ListNotations.
Open Scope string_scope.

(** ** context.Context *)

Module Ctx.

(** [map[string]string]; the entries are listed in the order in which a
    [range] loop visits them.  Go leaves that order unspecified and picks
    it afresh for every loop: a statement about one call holds for every
    order, and a statement about two calls gives the second call a list
    that is a permutation of the first. *)
Definition EnvMap := list (string * string).

(** The dynamic values ([any]) that the package stores in a context. *)
Inductive any : Type :=
| Duration (d : Z)                (* time.Duration *)
| Str (s : string)                (* string *)
| Boolean (b : bool)              (* bool *)
| Environment (m : option EnvMap) (* map[string]string, [None] is the nil map *)
| Other (tag : nat).              (* a value of any other dynamic type *)

(** Context keys.  [context.WithValue] stores the key as an interface
    value and [Value] compares keys with [==]: two keys are equal when
    they have the same dynamic type and equal values.  Every key of this
    package is declared as [var xKey = struct{}{}], a value of the
    anonymous type [struct{}], which has exactly one value. *)
Inductive key : Type :=
| EmptyStruct            (* struct{}{} *)
| Foreign (id : nat).    (* a key of any other dynamic type *)

Definition key_eqb (a b : key) : bool :=
  match a, b with
  | EmptyStruct, EmptyStruct => true
  | Foreign i, Foreign j => Nat.eqb i j
  | _, _ => false
  end.

(** A context is the chain of its derivations.  [WithCancel] stands for
    the derived contexts that carry no value of their own (cancellation,
    deadlines): their [Value] asks the parent. *)
Inductive Context : Type :=
| Background
| WithValue (parent : Context) (k : key) (val : any)
| WithCancel (parent : Context).

(** [ctx.Value(key)]: the value of the innermost derivation whose key
    equals [k]; [None] is the nil interface. *)
Fixpoint Value (ctx : Context) (k : key) : option any :=
  match ctx with
  | Background => None
  | WithValue parent k' val => if key_eqb k' k then Some val else Value parent k
  | WithCancel parent => Value parent k
  end.

End Ctx.

Import Ctx.

(** ** Package state *)

(** What the detection probes of [IsContainerized] find on the host. *)
Record Host : Type := mkHost {
  stat_dockerenv : bool;            (* os.Stat("/.dockerenv") succeeds *)
  stat_containerenv : bool;         (* os.Stat("/.containerenv") succeeds *)
  env_KUBERNETES_SERVICE_HOST : bool; (* os.LookupEnv finds the variable *)
  stat_serviceaccount_token : bool  (* os.Stat of the service-account token succeeds *)
}.

(** The package-level variables. *)
Record Globals : Type := mkGlobals {
  isContainerized : bool;
  detectContainerized : bool;       (* the sync.Once has run *)
  useStandardLocale : bool;
  DefaultWaitDelay : Z
}.

(** The state of a freshly loaded package. *)
Definition initial : Globals :=
  {| isContainerized := false; detectContainerized := false;
     useStandardLocale := false; DefaultWaitDelay := 0 |}.

Definition nsenter : string := "/usr/bin/nsenter".
Definition DefaultVolumeGroupEnv : string := "LVM_VG_NAME".

Definition waitDelayKey : key := EmptyStruct.
Definition defaultVolumeGroupKey : key := EmptyStruct.
Definition envContextKey : key := EmptyStruct.
Definition forceNoNsenterKey : key := EmptyStruct.

(** ** Execution configuration *)

Definition SetProcessCancelWaitDelay (ctx : Context) (delay : Z) : Context :=
  WithValue ctx waitDelayKey (Duration delay).

Definition GetProcessCancelWaitDelay (g : Globals) (ctx : Context) : Z :=
  match Value ctx waitDelayKey with
  | Some (Duration delay) => delay
  | _ => DefaultWaitDelay g
  end.

Definition WithDefaultVolumeGroup (ctx : Context) (vg : string) : Context :=
  WithValue ctx defaultVolumeGroupKey (Str vg).

Definition DefaultVolumeGroup (ctx : Context) : string :=
  match Value ctx defaultVolumeGroupKey with
  | Some (Str vg) => vg
  | _ => ""
  end.

Definition WithCustomEnvironment (ctx : Context) (env : option EnvMap) : Context :=
  WithValue ctx envContextKey (Environment env).

Definition WithForceNoNsenter (ctx : Context) (force : bool) : Context :=
  WithValue ctx forceNoNsenterKey (Boolean force).

Definition GetCustomEnvironment (ctx : Context) : option EnvMap :=
  match Value ctx envContextKey with
  | Some (Environment env) => env
  | _ => None
  end.

Definition shouldForceNoNsenter (ctx : Context) : bool :=
  match Value ctx forceNoNsenterKey with
  | Some (Boolean force) => force
  | _ => false
  end.

Definition UseStandardLocale (g : Globals) : bool := useStandardLocale g.

Definition SetUseStandardLocale (use : bool) (g : Globals) : Globals :=
  {| isContainerized := isContainerized g;
     detectContainerized := detectContainerized g;
     useStandardLocale := use;
     DefaultWaitDelay := DefaultWaitDelay g |}.

(** ** Containerization detection *)

(** The body handed to [detectContainerized.Do]: the first probe that
    succeeds sets the flag, no probe clears it. *)
Definition detect (h : Host) (g : Globals) : bool :=
  if stat_dockerenv h then true
  else if stat_containerenv h then true
  else if env_KUBERNETES_SERVICE_HOST h then true
  else if stat_serviceaccount_token h then true
  else isContainerized g.

(** [IsContainerized(ctx)]: runs the detection on the first call only and
    returns the package variable.  (The log line is not modelled.) *)
Definition IsContainerized (h : Host) (ctx : Context) (g : Globals) : bool * Globals :=
  if detectContainerized g then (isContainerized g, g)
  else
    let v := detect h g in
    (v, {| isContainerized := v; detectContainerized := true;
           useStandardLocale := useStandardLocale g;
           DefaultWaitDelay := DefaultWaitDelay g |}).

Definition WillUseNsenter (h : Host) (ctx : Context) (g : Globals) : bool * Globals :=
  let '(c, g') := IsContainerized h ctx g in
  (c && negb (shouldForceNoNsenter ctx), g').

(** ** Command descriptors *)

(** [exec.Cmd], reduced to what this package sets.  [cmd_name] and
    [cmd_arg] are the operands [name] and [arg] of [exec.CommandContext];
    [Env] is [[]] for the nil slice.  The context that
    [exec.CommandContext] binds to the command, for its cancellation, is
    not part of the record: statements about a [Cmd] are statements about
    its name, arguments, environment and wait delay. *)
Record Cmd : Type := mkCmd {
  cmd_name : string;
  cmd_arg : list string;
  Env : list string;
  WaitDelay : Z
}.

(** [exec.CommandContext(ctx, name, arg...)]. *)
Definition exec_CommandContext (name : string) (arg : list string) : Cmd :=
  {| cmd_name := name; cmd_arg := arg; Env := []; WaitDelay := 0 |}.

(** [filepath.Base] on a system whose path separator is [/]: the last
    element of the path, trailing separators removed first; [.] for the
    empty path and [/] for a path of separators only. *)
Definition isPathSeparator (c : Ascii.ascii) : bool := Ascii.eqb c "/"%char.

Fixpoint dropWhile {A : Type} (f : A -> bool) (l : list A) : list A :=
  match l with
  | [] => []
  | x :: rest => if f x then dropWhile f rest else l
  end.

Fixpoint takeWhile {A : Type} (f : A -> bool) (l : list A) : list A :=
  match l with
  | [] => []
  | x :: rest => if f x then x :: takeWhile f rest else []
  end.

Definition Base (path : string) : string :=
  match path with
  | EmptyString => "."
  | _ =>
      let stripped := dropWhile isPathSeparator (rev (list_ascii_of_string path)) in
      match takeWhile (fun c => negb (isPathSeparator c)) stripped with
      | [] => "/"
      | last => string_of_list_ascii (rev last)
      end
  end.

(** The fields [Path] and [Args] of [exec.Cmd] as [exec.Command] fills
    them.  [Args] holds the program name followed by the arguments.
    [Path] is the name, unless [filepath.Base(name) == name] and
    [exec.LookPath(name)] returns a path other than the empty string: then
    it is that path.  What [exec.LookPath] returns depends on the file
    system and on [PATH]; it is the parameter [LookPath] (the empty string
    when it finds nothing). *)
Definition Path (LookPath : string -> string) (c : Cmd) : string :=
  if String.eqb (Base (cmd_name c)) (cmd_name c) then
    if String.eqb (LookPath (cmd_name c)) "" then cmd_name c
    else LookPath (cmd_name c)
  else cmd_name c.

Definition Args (c : Cmd) : list string := cmd_name c :: cmd_arg c.

(** [strings.Index(kv, "=")]; [None] is -1. *)
Fixpoint Index_eq (kv : string) : option nat :=
  match kv with
  | EmptyString => None
  | String c rest =>
      if Ascii.eqb c "="%char then Some 0 else option_map S (Index_eq rest)
  end.

(** The key under which os/exec files an environment entry: the text
    before the first [=], where an [=] in first place counts as part of
    the key; [None] for an entry without [=]. *)
Definition envKey (kv : string) : option string :=
  match Index_eq kv with
  | None => None
  | Some 0 =>
      match kv with
      | EmptyString => None
      | String _ rest =>
          match Index_eq rest with
          | None => Some ""
          | Some j => Some (substring 0 (S j) kv)
          end
      end
  | Some i => Some (substring 0 i kv)
  end.

Definition hasKey (k : string) (kv : string) : bool :=
  match envKey kv with
  | Some k' => String.eqb k' k
  | None => false
  end.

(** [strings.IndexByte(kv, 0) != -1] *)
Definition hasNUL (kv : string) : bool :=
  existsb (fun c => Ascii.eqb c Ascii.zero) (list_ascii_of_string kv).

(** The loop of [dedupEnv] of os/exec (case-sensitive keys, NUL refused),
    over the entries from the last to the first: an entry with a NUL byte
    is left out, an entry without [=] is kept unless it is empty, and of
    the entries with one key only the first met, which is the last of the
    environment, is kept.  The result is in the order of the loop. *)
Fixpoint dedupEnv_loop (env : list string) (saw : list string) : list string :=
  match env with
  | [] => []
  | kv :: rest =>
      if hasNUL kv then dedupEnv_loop rest saw
      else
        match envKey kv with
        | None =>
            if String.eqb kv "" then dedupEnv_loop rest saw
            else kv :: dedupEnv_loop rest saw
        | Some k =>
            if existsb (String.eqb k) saw then dedupEnv_loop rest saw
            else kv :: dedupEnv_loop rest (k :: saw)
        end
  end.

(** [dedupEnv]: the loop over the reversed environment, its result put
    back into the original order. *)
Definition dedupEnv (env : list string) : list string :=
  rev (dedupEnv_loop (rev env) []).

(** The method [Environ] of [exec.Cmd] for a command without working
    directory, on Linux: the environment in which the command would be
    run.  A nil [Env] stands for the environment of the current process;
    in both cases duplicate keys are removed, the last entry of a key
    staying.  ([Start] refuses to run a command whose environment holds a
    NUL byte.) *)
Definition Environ (parent : list string) (c : Cmd) : list string :=
  dedupEnv
    match Env c with
    | [] => parent
    | e => e
    end.

(** The entry that stands for a key in an environment: the last entry
    with that key and without NUL byte. *)
Definition lastEntry (k : string) (env : list string) : option string :=
  find (fun kv => negb (hasNUL kv) && hasKey k kv) (rev env).

Definition set_Env (c : Cmd) (e : list string) : Cmd :=
  {| cmd_name := cmd_name c; cmd_arg := cmd_arg c; Env := e; WaitDelay := WaitDelay c |}.

Definition set_WaitDelay (c : Cmd) (d : Z) : Cmd :=
  {| cmd_name := cmd_name c; cmd_arg := cmd_arg c; Env := Env c; WaitDelay := d |}.

(** An environment entry [k+"="+v], which is also what
    [fmt.Sprintf("%s=%s", k, v)] yields. *)
Definition entry (k v : string) : string := k ++ "=" ++ v.

Definition CommandWithCustomEnvironment (g : Globals) (ctx : Context) (cmd : Cmd) : Cmd :=
  let cmd := if UseStandardLocale g then set_Env cmd (Env cmd ++ ["LC_ALL=C"]) else cmd in
  match GetCustomEnvironment ctx with
  | Some env =>
      fold_left (fun cmd kv => set_Env cmd (Env cmd ++ [entry (fst kv) (snd kv)])) env cmd
  | None => cmd
  end.

Definition nsenterArgs (cmd : string) : list string :=
  ["-m"; "-u"; "-i"; "-n"; "-p"; "-t"; "1"; cmd].

Definition CommandContext (h : Host) (ctx : Context) (cmd : string) (args : list string)
    (g : Globals) : Cmd * Globals :=
  let '(containerized, g) := IsContainerized h ctx g in
  let c :=
    if containerized && negb (shouldForceNoNsenter ctx)
    then exec_CommandContext nsenter (nsenterArgs cmd ++ args)
    else exec_CommandContext cmd args in
  let c := set_WaitDelay c (GetProcessCancelWaitDelay g ctx) in
  let c :=
    if String.eqb (DefaultVolumeGroup ctx) ""
    then c
    else set_Env c (Env c ++ [entry DefaultVolumeGroupEnv (DefaultVolumeGroup ctx)]) in
  (CommandWithCustomEnvironment g ctx c, g).

(** ** The [noNsenterClient] decorator *)

Module Client.

(** The methods of the [Client] interface, as [noNsenterClient]
    implements them. *)
Inductive Method : Type :=
| Version | RawConfig | ReadAndDecodeConfig | WriteAndEncodeConfig
| UpdateGlobalConfig | UpdateLocalConfig | UpdateProfileConfig
| CreateProfile | RemoveProfile | GetProfilePath | GetProfileDirectory
| VG | VGs | VGCreate | VGRemove | VGExtend | VGReduce | VGRename | VGChange
| LV | LVs | LVCreate | LVRemove | LVResize | LVExtend | LVReduce
| LVRename | LVChange
| PVs | PVCreate | PVRemove | PVResize | PVChange | PVMove
| DevList | DevCheck | DevUpdate | DevModify.

Section Decorator.

(** For each method, the type of what it takes after the context (its
    options and other operands) and the type of what it returns (its
    values and its error, or a computation yielding them if the
    implementation has effects). *)
Variable Operands : Method -> Type.
Variable Returns : Method -> Type.

(** A [Client] is its method table. *)
Definition Client : Type :=
  forall m : Method, Context -> Operands m -> Returns m.

Record noNsenterClient : Type := mkNoNsenterClient { client : Client }.

Definition applyNoNsenter (c : noNsenterClient) (ctx : Context) : Context :=
  WithForceNoNsenter ctx true.

(** Every method of [noNsenterClient] has the same body:
    [return c.client.M(c.applyNoNsenter(ctx), operands...)]. *)
Definition call (c : noNsenterClient) : Client :=
  fun m ctx operands => client c m (applyNoNsenter c ctx) operands.

(** Modelled from the spec: [WithNoNsenter] of client.go, which is
    outside the verified sources; it wraps a client into the decorator
    (the comment on [noNsenterClient] and the README say so). *)
Definition WithNoNsenter (c : Client) : Client :=
  call {| client := c |}.

End Decorator.

End Client.

(** ** Argument lists *)

Definition error : Type := option string.

(** The Argument List of args.go, which is outside the verified sources:
    an ordered sequence of string tokens behind the interface
    [Arguments]. *)
Module Args.

Inductive ArgsType : Type := ArgsTypeGeneric.

(** Modelled from the spec: the type [Arguments] of args.go, "an ordered
    sequence of string tokens". *)
Definition Arguments : Type := list string.

(** Modelled from the spec: [NewArgs] of args.go; a composition pass
    starts from the empty sequence. *)
Definition NewArgs (typ : ArgsType) : Arguments := [].

Definition remove (tok : string) (args : Arguments) : Arguments :=
  filter (fun a => negb (String.eqb a tok)) args.

(** Modelled from the spec: [AddOrReplace] of args.go, "remove prior
    occurrences of a flag, then append". *)
Definition AddOrReplace (args : Arguments) (tok : string) : Arguments :=
  (remove tok args ++ [tok])%list.

(** Modelled from the spec: [GetRaw] of args.go, the tokens in order. *)
Definition GetRaw (args : Arguments) : list string := args.

End Args.

Import Args.

(** The interface [Argument]: a value that renders itself into an argument
    list.  The list is a shared mutable object in Go, so [ApplyToArgs]
    returns the list as it leaves it together with its error. *)
Definition Argument : Type := Arguments -> Arguments * error.

(** [for _, arg := range []Argument{...} { if err := arg.ApplyToArgs(args);
    err != nil { return err } }; return nil] *)
Fixpoint ApplyEach (l : list Argument) (args : Arguments) : Arguments * error :=
  match l with
  | [] => (args, None)
  | arg :: rest =>
      match arg args with
      | (args', Some err) => (args', Some err)
      | (args', None) => ApplyEach rest args'
      end
  end.

(** ** Options *)

(** The option types are declared outside the verified sources; the code
    compares a [VolumeGroupName] with a string literal, takes the length of
    [PhysicalVolumeNames], negates [RemoveMissing] and tests
    [RequestConfirm] and [Verbose] as booleans. *)
Definition VolumeGroupName : Type := string.
Definition PhysicalVolumeNames : Type := list string.
Definition RemoveMissing : Type := bool.
Definition Force : Type := bool.
Definition Devices : Type := list string.
Definition DevicesFile : Type := string.
Definition Profile : Type := string.
Definition Verbose : Type := bool.
Definition RequestConfirm : Type := bool.

(** The [ApplyToArgs] methods of the option types that are declared
    outside the verified sources; the code below calls them and is
    verified for every implementation of them. *)
Record FieldArguments : Type := mkFieldArguments {
  VolumeGroupName_ApplyToArgs : VolumeGroupName -> Argument;
  PhysicalVolumeNames_ApplyToArgs : PhysicalVolumeNames -> Argument;
  RemoveMissing_ApplyToArgs : RemoveMissing -> Argument;
  Force_ApplyToArgs : Force -> Argument;
  Devices_ApplyToArgs : Devices -> Argument;
  DevicesFile_ApplyToArgs : DevicesFile -> Argument
}.

Definition RequestConfirm_ApplyToArgs (opt : RequestConfirm) : Argument :=
  fun args =>
    if negb opt then (AddOrReplace args "--yes", None) else (args, None).

Definition Verbose_ApplyToArgs (opt : Verbose) : Argument :=
  fun args =>
    if opt then (AddOrReplace args "--verbose", None) else (args, None).

Record CommonOptions : Type := mkCommonOptions {
  co_Devices : Devices;
  co_DevicesFile : DevicesFile;
  co_Profile : Profile;
  co_Verbose : Verbose;
  co_RequestConfirm : RequestConfirm
}.

Definition CommonOptions_ApplyToArgs (F : FieldArguments) (opts : CommonOptions) : Argument :=
  ApplyEach
    [ Devices_ApplyToArgs F (co_Devices opts);
      DevicesFile_ApplyToArgs F (co_DevicesFile opts);
      Verbose_ApplyToArgs (co_Verbose opts);
      RequestConfirm_ApplyToArgs (co_RequestConfirm opts) ].

(** ** vgreduce *)

Record VGReduceOptions : Type := mkVGReduceOptions {
  vgr_VolumeGroupName : VolumeGroupName;
  vgr_PhysicalVolumeNames : PhysicalVolumeNames;
  vgr_RemoveMissing : RemoveMissing;
  vgr_Force : Force;
  vgr_CommonOptions : CommonOptions
}.

(** The zero values [CommonOptions{}] and [VGReduceOptions{}]. *)
Definition CommonOptions_zero : CommonOptions :=
  {| co_Devices := []; co_DevicesFile := ""; co_Profile := "";
     co_Verbose := false; co_RequestConfirm := false |}.

Definition VGReduceOptions_zero : VGReduceOptions :=
  {| vgr_VolumeGroupName := ""; vgr_PhysicalVolumeNames := [];
     vgr_RemoveMissing := false; vgr_Force := false;
     vgr_CommonOptions := CommonOptions_zero |}.

Definition errVolumeGroupNameRequired : string :=
  "VolumeGroupName is required for extension of a volume group".
Definition errPhysicalVolumeNameRequired : string :=
  "at least one PhysicalVolumeName is required for reduction of a volume group".

(** The fields in the order in which [ApplyToArgs] renders them. *)
Definition VGReduceOptions_fields (F : FieldArguments) (opts : VGReduceOptions) : list Argument :=
  [ RemoveMissing_ApplyToArgs F (vgr_RemoveMissing opts);
    VolumeGroupName_ApplyToArgs F (vgr_VolumeGroupName opts);
    PhysicalVolumeNames_ApplyToArgs F (vgr_PhysicalVolumeNames opts);
    Force_ApplyToArgs F (vgr_Force opts);
    CommonOptions_ApplyToArgs F (vgr_CommonOptions opts) ].

Definition VGReduceOptions_ApplyToArgs (F : FieldArguments) (opts : VGReduceOptions) : Argument :=
  fun args =>
    if String.eqb (vgr_VolumeGroupName opts) "" then
      (args, Some errVolumeGroupNameRequired)
    else if Nat.eqb (length (vgr_PhysicalVolumeNames opts)) 0
            && negb (vgr_RemoveMissing opts) then
      (args, Some errPhysicalVolumeNameRequired)
    else ApplyEach (VGReduceOptions_fields F opts) args.

(** The implementations of the interface [VGReduceOption].  The last one,
    a pointer to a whole options struct, is in vgreduce.go.

    The [ApplyToVGReduceOptions] methods of the field types are outside
    the verified sources. *)
Inductive VGReduceOption : Type :=
| OptVolumeGroupName (v : VolumeGroupName)
| OptPhysicalVolumeNames (v : PhysicalVolumeNames)
| OptRemoveMissing (v : RemoveMissing)
| OptForce (v : Force)
| OptCommonOptions (v : CommonOptions)
| OptVGReduceOptions (opts : VGReduceOptions).

(** Modelled from the spec: the [ApplyToVGReduceOptions] methods of the
    field types, which are outside the verified sources; "later options of
    the same kind overwrite earlier ones", so an option sets the field of
    its kind.  The last case is the method of vgreduce.go,
    [*new = *opts]. *)
Definition ApplyToVGReduceOptions (opt : VGReduceOption) (new : VGReduceOptions) : VGReduceOptions :=
  match opt with
  | OptVolumeGroupName v =>
      {| vgr_VolumeGroupName := v;
         vgr_PhysicalVolumeNames := vgr_PhysicalVolumeNames new;
         vgr_RemoveMissing := vgr_RemoveMissing new;
         vgr_Force := vgr_Force new;
         vgr_CommonOptions := vgr_CommonOptions new |}
  | OptPhysicalVolumeNames v =>
      {| vgr_VolumeGroupName := vgr_VolumeGroupName new;
         vgr_PhysicalVolumeNames := v;
         vgr_RemoveMissing := vgr_RemoveMissing new;
         vgr_Force := vgr_Force new;
         vgr_CommonOptions := vgr_CommonOptions new |}
  | OptRemoveMissing v =>
      {| vgr_VolumeGroupName := vgr_VolumeGroupName new;
         vgr_PhysicalVolumeNames := vgr_PhysicalVolumeNames new;
         vgr_RemoveMissing := v;
         vgr_Force := vgr_Force new;
         vgr_CommonOptions := vgr_CommonOptions new |}
  | OptForce v =>
      {| vgr_VolumeGroupName := vgr_VolumeGroupName new;
         vgr_PhysicalVolumeNames := vgr_PhysicalVolumeNames new;
         vgr_RemoveMissing := vgr_RemoveMissing new;
         vgr_Force := v;
         vgr_CommonOptions := vgr_CommonOptions new |}
  | OptCommonOptions v =>
      {| vgr_VolumeGroupName := vgr_VolumeGroupName new;
         vgr_PhysicalVolumeNames := vgr_PhysicalVolumeNames new;
         vgr_RemoveMissing := vgr_RemoveMissing new;
         vgr_Force := vgr_Force new;
         vgr_CommonOptions := v |}
  | OptVGReduceOptions opts => opts
  end.

Definition VGReduceOptionsList : Type := list VGReduceOption.

(** The options struct that [AsArgs] hands to validation and rendering:
    every option of the list applied, in order, to the zero struct. *)
Definition aggregate (list : VGReduceOptionsList) : VGReduceOptions :=
  fold_left (fun options opt => ApplyToVGReduceOptions opt options) list VGReduceOptions_zero.

(** [AsArgs] returns [(nil, err)] or [(args, nil)]. *)
Definition AsArgs (F : FieldArguments) (list : VGReduceOptionsList) : option Arguments * error :=
  let args := NewArgs ArgsTypeGeneric in
  let options := aggregate list in
  match VGReduceOptions_ApplyToArgs F options args with
  | (_, Some err) => (None, Some err)
  | (args, None) => (Some args, None)
  end.

(** ** The environment of a built command, entry by entry *)

(** The entries [CommandContext] and [CommandWithCustomEnvironment] add on
    their own account, in the order in which they add them. *)
Definition automaticEntries (g : Globals) (ctx : Context) : list string :=
  let vg :=
    if String.eqb (DefaultVolumeGroup ctx) "" then []
    else [entry DefaultVolumeGroupEnv (DefaultVolumeGroup ctx)] in
  let locale := if UseStandardLocale g then ["LC_ALL=C"] else [] in
  (vg ++ locale)%list.

(** The entries that come from the custom environment of the context. *)
Definition customEntries (ctx : Context) : list string :=
  match GetCustomEnvironment ctx with
  | Some env => map (fun kv => entry (fst kv) (snd kv)) env
  | None => []
  end.

(** ** Kinds of vgreduce options *)

(** The kind of an option is the Go type that implements
    [VGReduceOption]. *)
Inductive Kind : Type :=
| KVolumeGroupName | KPhysicalVolumeNames | KRemoveMissing | KForce
| KCommonOptions | KVGReduceOptions.

Definition kind (opt : VGReduceOption) : Kind :=
  match opt with
  | OptVolumeGroupName _ => KVolumeGroupName
  | OptPhysicalVolumeNames _ => KPhysicalVolumeNames
  | OptRemoveMissing _ => KRemoveMissing
  | OptForce _ => KForce
  | OptCommonOptions _ => KCommonOptions
  | OptVGReduceOptions _ => KVGReduceOptions
  end.

Definition Kind_eqb (a b : Kind) : bool :=
  match a, b with
  | KVolumeGroupName, KVolumeGroupName
  | KPhysicalVolumeNames, KPhysicalVolumeNames
  | KRemoveMissing, KRemoveMissing
  | KForce, KForce
  | KCommonOptions, KCommonOptions
  | KVGReduceOptions, KVGReduceOptions => true
  | _, _ => false
  end.

(** [touches opt b]: applying [opt] writes a field that [b] writes.  A
    whole options struct writes every field. *)
Definition touches (opt b : VGReduceOption) : bool :=
  Kind_eqb (kind opt) (kind b)
  || Kind_eqb (kind opt) KVGReduceOptions
  || Kind_eqb (kind b) KVGReduceOptions.

(** [reflects opt options]: the options struct holds the value of [opt]
    in the field (or fields) of its kind. *)
Definition reflects (opt : VGReduceOption) (options : VGReduceOptions) : Prop :=
  match opt with
  | OptVolumeGroupName v => vgr_VolumeGroupName options = v
  | OptPhysicalVolumeNames v => vgr_PhysicalVolumeNames options = v
  | OptRemoveMissing v => vgr_RemoveMissing options = v
  | OptForce v => vgr_Force options = v
  | OptCommonOptions v => vgr_CommonOptions options = v
  | OptVGReduceOptions opts => options = opts
  end.

(** [agree_off k a b]: the structs [a] and [b] hold the same values in
    every field that an option of kind [k] does not write. *)
Definition agree_off (k : Kind) (a b : VGReduceOptions) : Prop :=
  (k = KVolumeGroupName \/ k = KVGReduceOptions \/
   vgr_VolumeGroupName a = vgr_VolumeGroupName b) /\
  (k = KPhysicalVolumeNames \/ k = KVGReduceOptions \/
   vgr_PhysicalVolumeNames a = vgr_PhysicalVolumeNames b) /\
  (k = KRemoveMissing \/ k = KVGReduceOptions \/
   vgr_RemoveMissing a = vgr_RemoveMissing b) /\
  (k = KForce \/ k = KVGReduceOptions \/
   vgr_Force a = vgr_Force b) /\
  (k = KCommonOptions \/ k = KVGReduceOptions \/
   vgr_CommonOptions a = vgr_CommonOptions b).

(** [opts.Profile = p] on a [CommonOptions], and on the [CommonOptions] of
    a [VGReduceOptions]. *)
Definition set_Profile (p : Profile) (opts : CommonOptions) : CommonOptions :=
  {| co_Devices := co_Devices opts; co_DevicesFile := co_DevicesFile opts;
     co_Profile := p;
     co_Verbose := co_Verbose opts; co_RequestConfirm := co_RequestConfirm opts |}.

Definition set_CommonOptions (c : CommonOptions) (opts : VGReduceOptions) : VGReduceOptions :=
  ApplyToVGReduceOptions (OptCommonOptions c) opts.

(** What [AsArgs] makes of the outcome of rendering. *)
Definition asResult (r : Arguments * error) : option Arguments * error :=
  match r with
  | (_, Some err) => (None, Some err)
  | (args, None) => (Some args, None)
  end.

(** Sample implementations of the methods declared outside the verified
    sources, for the examples: a name is its own token, a flag is added when
    set. *)
Definition sampleFieldArguments : FieldArguments :=
  {| VolumeGroupName_ApplyToArgs := fun v args => (AddOrReplace args v, None);
     PhysicalVolumeNames_ApplyToArgs := fun v args => (fold_left AddOrReplace v args, None);
     RemoveMissing_ApplyToArgs := fun v args =>
       if v then (AddOrReplace args "--removemissing", None) else (args, None);
     Force_ApplyToArgs := fun v args =>
       if v then (AddOrReplace args "--force", None) else (args, None);
     Devices_ApplyToArgs := fun v args => (fold_left AddOrReplace v args, None);
     DevicesFile_ApplyToArgs := fun v args =>
       if String.eqb v "" then (args, None) else (AddOrReplace args v, None) |}.

(** ** Derived contexts and repeated calls *)

(** A derivation that stores nothing under the package's key: a value of
    another package, under a key of another type, or a cancellation. *)
Inductive Derivation : Type :=
| DValue (id : nat) (val : any)   (* context.WithValue(ctx, otherKey, val) *)
| DCancel.                        (* context.WithCancel(ctx) and the like *)

Definition derive1 (ctx : Context) (d : Derivation) : Context :=
  match d with
  | DValue id val => WithValue ctx (Foreign id) val
  | DCancel => WithCancel ctx
  end.

(** The context reached from [ctx] by the derivations [ds], first to
    last. *)
Definition derive (ctx : Context) (ds : list Derivation) : Context :=
  fold_left derive1 ds ctx.

(** Consecutive calls of [IsContainerized], each with its own context and
    with the host as it is at the time of the call; the answers, in order,
    and the package state after the last call. *)
Fixpoint IsContainerized_calls (calls : list (Host * Context)) (g : Globals)
    : list bool * Globals :=
  match calls with
  | [] => ([], g)
  | (h, ctx) :: rest =>
      let '(b, g1) := IsContainerized h ctx g in
      let '(bs, g2) := IsContainerized_calls rest g1 in
      (b :: bs, g2)
  end.

(** ** The vgreduce call of the client *)

(** How a call ends: it returns its error and leaves the world in some
    state, or it panics. *)
Inductive Outcome (World : Type) : Type :=
| Returned (err : error) (w : World)
| Panicked.

Arguments Returned {World} err w.
Arguments Panicked {World}.

(** The method [VGReduce] of [client].  [RunLVM], the method that starts the tool, is
    declared outside the verified sources and is a parameter; [World] is
    whatever it acts on.  [args.GetRaw()] on a nil [Arguments] is a nil
    dereference. *)
Definition client_VGReduce {World : Type} (F : FieldArguments)
    (RunLVM : Context -> list string -> World -> error * World)
    (ctx : Context) (opts : VGReduceOptionsList) (w : World) : Outcome World :=
  match AsArgs F opts with
  | (_, Some err) => Returned (Some err) w
  | (Some args, None) =>
      let '(err, w') := RunLVM ctx ("vgreduce" :: GetRaw args) w in
      Returned err w'
  | (None, None) => Panicked
  end.

(** ** Test scaffolding: the name of a test logical volume *)

(** The options of a [TestLogicalVolume], told apart the way the type
    switch of [LogicalVolumeName()] tells them apart: a
    [LogicalVolumeName], or a value of any other type. *)
Inductive LVCreateOption : Type :=
| LVName (name : string)
| LVOther (tag : nat).

Record TestLogicalVolume : Type := mkTestLogicalVolume {
  Options : list LVCreateOption
}.

(** [for _, opt := range lv.Options { switch topt := opt.(type) { case
    LogicalVolumeName: return topt } }; return ""] *)
Fixpoint firstLogicalVolumeName (options : list LVCreateOption) : string :=
  match options with
  | [] => ""
  | LVName name :: _ => name
  | LVOther _ :: rest => firstLogicalVolumeName rest
  end.

Definition LogicalVolumeName (lv : TestLogicalVolume) : string :=
  firstLogicalVolumeName (Options lv).

Definition isLVName (opt : LVCreateOption) : bool :=
  match opt with
  | LVName _ => true
  | LVOther _ => false
  end.

(** ** One context, seen by two calls *)

(** [sameUpToMapOrder ctx ctx']: the two contexts carry the same value
    under the package's key, where a custom environment map may be listed
    in two different orders.  [ctx'] is [ctx] as another call sees it,
    whose [range] loop visits the map in an order of its own. *)
Definition sameUpToMapOrder (ctx ctx' : Context) : Prop :=
  match Value ctx EmptyStruct, Value ctx' EmptyStruct with
  | Some (Environment (Some env)), Some (Environment (Some env')) => Permutation env env'
  | v, v' => v = v'
  end.

(** * Properties *)

(** ** Contexts *)

Lemma Value_WithValue_same (ctx : Context) (k : key) (v : any) :
  Value (WithValue ctx k v) k = Some v.
Proof.
  simpl. destruct k as [|i]; simpl; [reflexivity|].
  now rewrite Nat.eqb_refl.
Qed.

(** All four keys of the package are one and the same key. *)
Lemma keys_coincide :
  waitDelayKey = defaultVolumeGroupKey /\
  defaultVolumeGroupKey = envContextKey /\
  envContextKey = forceNoNsenterKey.
Proof. repeat split. Qed.

Lemma shouldForceNoNsenter_WithForceNoNsenter (ctx : Context) (force : bool) :
  shouldForceNoNsenter (WithForceNoNsenter ctx force) = force.
Proof. reflexivity. Qed.

Lemma GetProcessCancelWaitDelay_Set (g : Globals) (ctx : Context) (d : Z) :
  GetProcessCancelWaitDelay g (SetProcessCancelWaitDelay ctx d) = d.
Proof. reflexivity. Qed.

Lemma DefaultVolumeGroup_With (ctx : Context) (vg : string) :
  DefaultVolumeGroup (WithDefaultVolumeGroup ctx vg) = vg.
Proof. reflexivity. Qed.

Lemma GetCustomEnvironment_With (ctx : Context) (env : option EnvMap) :
  GetCustomEnvironment (WithCustomEnvironment ctx env) = env.
Proof. reflexivity. Qed.

(** A later setter of another field hides the wait delay: the getter finds
    the other field's value under the shared key and falls back to the
    default. *)
Lemma wait_delay_hidden (g : Globals) (ctx : Context) (d : Z) :
  (forall vg, GetProcessCancelWaitDelay g
                (WithDefaultVolumeGroup (SetProcessCancelWaitDelay ctx d) vg)
              = DefaultWaitDelay g) /\
  (forall env, GetProcessCancelWaitDelay g
                 (WithCustomEnvironment (SetProcessCancelWaitDelay ctx d) env)
               = DefaultWaitDelay g) /\
  (forall force, GetProcessCancelWaitDelay g
                   (WithForceNoNsenter (SetProcessCancelWaitDelay ctx d) force)
                 = DefaultWaitDelay g).
Proof. repeat split. Qed.

(** The same for the three other fields. *)
Lemma default_volume_group_hidden (ctx : Context) (vg : string) :
  (forall d, DefaultVolumeGroup (SetProcessCancelWaitDelay (WithDefaultVolumeGroup ctx vg) d) = "") /\
  (forall env, DefaultVolumeGroup (WithCustomEnvironment (WithDefaultVolumeGroup ctx vg) env) = "") /\
  (forall force, DefaultVolumeGroup (WithForceNoNsenter (WithDefaultVolumeGroup ctx vg) force) = "").
Proof. repeat split. Qed.

Lemma custom_environment_hidden (ctx : Context) (env : option EnvMap) :
  (forall d, GetCustomEnvironment (SetProcessCancelWaitDelay (WithCustomEnvironment ctx env) d) = None) /\
  (forall vg, GetCustomEnvironment (WithDefaultVolumeGroup (WithCustomEnvironment ctx env) vg) = None) /\
  (forall force, GetCustomEnvironment (WithForceNoNsenter (WithCustomEnvironment ctx env) force) = None).
Proof. repeat split. Qed.

Lemma force_no_nsenter_hidden (ctx : Context) (force : bool) :
  (forall d, shouldForceNoNsenter (SetProcessCancelWaitDelay (WithForceNoNsenter ctx force) d) = false) /\
  (forall vg, shouldForceNoNsenter (WithDefaultVolumeGroup (WithForceNoNsenter ctx force) vg) = false) /\
  (forall env, shouldForceNoNsenter (WithCustomEnvironment (WithForceNoNsenter ctx force) env) = false).
Proof. repeat split. Qed.

(** ** Detection *)

Lemma IsContainerized_state (h : Host) (ctx : Context) (g : Globals) :
  useStandardLocale (snd (IsContainerized h ctx g)) = useStandardLocale g /\
  DefaultWaitDelay (snd (IsContainerized h ctx g)) = DefaultWaitDelay g /\
  detectContainerized (snd (IsContainerized h ctx g)) = true /\
  isContainerized (snd (IsContainerized h ctx g)) = fst (IsContainerized h ctx g).
Proof.
  unfold IsContainerized.
  destruct (detectContainerized g) eqn:E; simpl; auto.
Qed.

(** Detection happens once: a second call probes nothing and answers as
    the first did, whatever the host looks like by then. *)
Lemma IsContainerized_once (h h' : Host) (ctx ctx' : Context) (g : Globals) :
  IsContainerized h' ctx' (snd (IsContainerized h ctx g))
  = (fst (IsContainerized h ctx g), snd (IsContainerized h ctx g)).
Proof.
  destruct (IsContainerized_state h ctx g) as (_ & _ & Hd & Hi).
  unfold IsContainerized at 1. now rewrite Hd, Hi.
Qed.

(** The answer does not depend on the context. *)
Lemma IsContainerized_ctx (h : Host) (ctx ctx' : Context) (g : Globals) :
  IsContainerized h ctx g = IsContainerized h ctx' g.
Proof. reflexivity. Qed.

(** ** Command construction *)

Lemma Env_custom_loop (env : EnvMap) (c : Cmd) :
  Env (fold_left (fun cmd kv => set_Env cmd (Env cmd ++ [entry (fst kv) (snd kv)])) env c)
  = (Env c ++ map (fun kv => entry (fst kv) (snd kv)) env)%list.
Proof.
  revert c. induction env as [|kv env IH]; intros c; simpl.
  - now rewrite app_nil_r.
  - rewrite IH. simpl. now rewrite <- app_assoc.
Qed.

Lemma custom_loop_keeps (env : EnvMap) (c : Cmd) :
  let c' := fold_left (fun cmd kv => set_Env cmd (Env cmd ++ [entry (fst kv) (snd kv)])) env c in
  cmd_name c' = cmd_name c /\ cmd_arg c' = cmd_arg c /\ WaitDelay c' = WaitDelay c.
Proof.
  revert c. induction env as [|kv env IH]; intros c; simpl; [auto|].
  destruct (IH (set_Env c (Env c ++ [entry (fst kv) (snd kv)]))) as (H1 & H2 & H3).
  simpl in *. auto.
Qed.

(** [CommandWithCustomEnvironment] touches the environment only. *)
Lemma CommandWithCustomEnvironment_keeps (g : Globals) (ctx : Context) (c : Cmd) :
  let c' := CommandWithCustomEnvironment g ctx c in
  cmd_name c' = cmd_name c /\ cmd_arg c' = cmd_arg c /\ WaitDelay c' = WaitDelay c.
Proof.
  unfold CommandWithCustomEnvironment.
  destruct (GetCustomEnvironment ctx) as [env|].
  - destruct (custom_loop_keeps env
                (if UseStandardLocale g then set_Env c (Env c ++ ["LC_ALL=C"]) else c))
      as (H1 & H2 & H3).
    simpl in *. rewrite H1, H2, H3.
    destruct (UseStandardLocale g); simpl; auto.
  - destruct (UseStandardLocale g); simpl; auto.
Qed.

Lemma CommandWithCustomEnvironment_Env (g : Globals) (ctx : Context) (c : Cmd) :
  Env (CommandWithCustomEnvironment g ctx c)
  = (Env c ++ (if UseStandardLocale g then ["LC_ALL=C"] else []) ++ customEntries ctx)%list.
Proof.
  unfold CommandWithCustomEnvironment, customEntries.
  destruct (GetCustomEnvironment ctx) as [env|].
  - rewrite Env_custom_loop.
    destruct (UseStandardLocale g); simpl.
    + now rewrite <- app_assoc.
    + reflexivity.
  - destruct (UseStandardLocale g); simpl; now rewrite ?app_nil_r.
Qed.

(** The command and its arguments, as [CommandContext] chooses them. *)
Lemma CommandContext_operands (h : Host) (ctx : Context) (cmd : string)
    (args : list string) (g : Globals) :
  let c := fst (CommandContext h ctx cmd args g) in
  (cmd_name c, cmd_arg c)
  = if fst (IsContainerized h ctx g) && negb (shouldForceNoNsenter ctx)
    then (nsenter, (nsenterArgs cmd ++ args)%list)
    else (cmd, args).
Proof.
  unfold CommandContext.
  destruct (IsContainerized h ctx g) as [containerized g'] eqn:E. simpl.
  match goal with
  | |- context [CommandWithCustomEnvironment g' ctx ?c0] =>
      destruct (CommandWithCustomEnvironment_keeps g' ctx c0) as (H1 & H2 & _)
  end.
  simpl in H1, H2. rewrite H1, H2.
  destruct (containerized && negb (shouldForceNoNsenter ctx));
    destruct (String.eqb (DefaultVolumeGroup ctx) ""); reflexivity.
Qed.

Lemma CommandContext_Env (h : Host) (ctx : Context) (cmd : string)
    (args : list string) (g : Globals) :
  Env (fst (CommandContext h ctx cmd args g))
  = (automaticEntries g ctx ++ customEntries ctx)%list.
Proof.
  unfold CommandContext.
  destruct (IsContainerized_state h ctx g) as (Hl & _).
  destruct (IsContainerized h ctx g) as [containerized g'] eqn:E. simpl in *.
  rewrite CommandWithCustomEnvironment_Env.
  unfold automaticEntries, UseStandardLocale. rewrite Hl.
  destruct (containerized && negb (shouldForceNoNsenter ctx));
    destruct (String.eqb (DefaultVolumeGroup ctx) ""); simpl;
    destruct (useStandardLocale g); reflexivity.
Qed.

Lemma CommandContext_WaitDelay (h : Host) (ctx : Context) (cmd : string)
    (args : list string) (g : Globals) :
  WaitDelay (fst (CommandContext h ctx cmd args g)) = GetProcessCancelWaitDelay g ctx.
Proof.
  unfold CommandContext.
  destruct (IsContainerized_state h ctx g) as (_ & Hw & _).
  destruct (IsContainerized h ctx g) as [containerized g'] eqn:E. simpl in *.
  match goal with
  | |- context [CommandWithCustomEnvironment g' ctx ?c0] =>
      destruct (CommandWithCustomEnvironment_keeps g' ctx c0) as (_ & _ & H3)
  end.
  simpl in H3. rewrite H3.
  unfold GetProcessCancelWaitDelay. rewrite Hw.
  destruct (containerized && negb (shouldForceNoNsenter ctx));
    destruct (String.eqb (DefaultVolumeGroup ctx) ""); reflexivity.
Qed.

(** The hosts and states of the examples: a container and a plain host. *)
Example CommandContext_plain_host :
  fst (CommandContext (mkHost false false false false) Background "toolX" ["list"] initial)
  = {| cmd_name := "toolX"; cmd_arg := ["list"]; Env := []; WaitDelay := 0 |}.
Proof. reflexivity. Qed.

Example CommandContext_in_container :
  fst (CommandContext (mkHost true false false false) Background "toolX" ["list"] initial)
  = {| cmd_name := "/usr/bin/nsenter";
       cmd_arg := ["-m"; "-u"; "-i"; "-n"; "-p"; "-t"; "1"; "toolX"; "list"];
       Env := []; WaitDelay := 0 |}.
Proof. reflexivity. Qed.

Example CommandContext_in_container_bypass :
  fst (CommandContext (mkHost true false false false)
         (WithForceNoNsenter Background true) "toolX" ["list"] initial)
  = {| cmd_name := "toolX"; cmd_arg := ["list"]; Env := []; WaitDelay := 0 |}.
Proof. reflexivity. Qed.

Example CommandContext_environment :
  Env (fst (CommandContext (mkHost false false false false)
              (WithCustomEnvironment Background (Some [("LC_ALL", "de_DE.UTF-8")]))
              "lvm" ["vgs"] (SetUseStandardLocale true initial)))
  = ["LC_ALL=C"; "LC_ALL=de_DE.UTF-8"].
Proof. reflexivity. Qed.

(** C1, as stated, fails for the path: the path of the descriptor is not
    always the command.  [exec.Command] looks a bare name up in [PATH];
    where [exec.LookPath] finds [sh] as [/usr/bin/sh], the descriptor built
    for [sh] on a plain host has the path [/usr/bin/sh], not [sh]. *)
Lemma C1_path_is_resolved_by_LookPath :
  let LookPath := fun name => if String.eqb name "sh" then "/usr/bin/sh" else "" in
  let c := fst (CommandContext (mkHost false false false false) Background
                  "sh" ["-c"; "true"] initial) in
  fst (IsContainerized (mkHost false false false false) Background initial) = false /\
  Path LookPath c = "/usr/bin/sh" /\
  Path LookPath c <> "sh".
Proof. cbv zeta. split; [reflexivity|]. split; [reflexivity | discriminate]. Qed.

(** C1, amended: when the process is not containerized or the context
    forces no nsenter, [CommandContext] hands the command and exactly the
    given arguments to [exec.CommandContext]: the argument vector is the
    command followed by the given arguments, and the path is the command,
    except that for a command without directory part that [exec.LookPath]
    finds, the path is the file found.  When the process is containerized
    and the context does not force it, the path is [/usr/bin/nsenter] and
    the argument vector is [/usr/bin/nsenter], [-m -u -i -n -p -t 1], the
    command, and then the given arguments. *)
Theorem C1_CommandContext_descriptor (LookPath : string -> string)
    (h : Host) (ctx : Context) (cmd : string) (args : list string) (g : Globals) :
  let c := fst (CommandContext h ctx cmd args g) in
  (fst (IsContainerized h ctx g) = false \/ shouldForceNoNsenter ctx = true ->
   cmd_name c = cmd /\ cmd_arg c = args /\
   Args c = cmd :: args /\
   Path LookPath c
   = if String.eqb (Base cmd) cmd
     then if String.eqb (LookPath cmd) "" then cmd else LookPath cmd
     else cmd) /\
  (fst (IsContainerized h ctx g) = true /\ shouldForceNoNsenter ctx = false ->
   cmd_name c = "/usr/bin/nsenter" /\
   cmd_arg c = (["-m"; "-u"; "-i"; "-n"; "-p"; "-t"; "1"; cmd] ++ args)%list /\
   Args c = ("/usr/bin/nsenter" :: ["-m"; "-u"; "-i"; "-n"; "-p"; "-t"; "1"; cmd] ++ args)%list /\
   Path LookPath c = "/usr/bin/nsenter").
Proof.
  intros c.
  pose proof (CommandContext_operands h ctx cmd args g) as H.
  fold c in H. unfold Path, Args.
  split.
  - intros Hcase.
    assert (Hb : fst (IsContainerized h ctx g) && negb (shouldForceNoNsenter ctx) = false).
    { destruct Hcase as [-> | ->]; [reflexivity | now rewrite andb_false_r]. }
    rewrite Hb in H. inversion H as [[Hn Ha]]. rewrite Hn, Ha. auto.
  - intros [Hc Hf]. rewrite Hc, Hf in H. simpl in H.
    inversion H as [[Hn Ha]]. rewrite Hn, Ha. auto.
Qed.

Lemma C1_CommandContext_descriptor_witness :
  let LookPath := fun name => if String.eqb name "toolX" then "/usr/sbin/toolX" else "" in
  (let c := fst (CommandContext (mkHost false false false false) Background
                   "toolX" ["list"] initial) in
   cmd_arg c = ["list"] /\ Args c = ["toolX"; "list"] /\
   Path LookPath c = "/usr/sbin/toolX") /\
  (let c := fst (CommandContext (mkHost false true false false)
                   (WithForceNoNsenter Background true) "./toolX" ["list"] initial) in
   cmd_arg c = ["list"] /\ Args c = ["./toolX"; "list"] /\
   Path LookPath c = "./toolX") /\
  (let c := fst (CommandContext (mkHost false true false false) Background
                   "toolX" ["list"] initial) in
   Path LookPath c = "/usr/bin/nsenter" /\
   Args c = ["/usr/bin/nsenter"; "-m"; "-u"; "-i"; "-n"; "-p"; "-t"; "1"; "toolX"; "list"]).
Proof.
  intros LookPath. split; [|split].
  - destruct (C1_CommandContext_descriptor LookPath (mkHost false false false false)
                Background "toolX" ["list"] initial) as [Hdirect _].
    destruct (Hdirect (or_introl eq_refl)) as (_ & Ha & HA & HP).
    split; [exact Ha|]. split; [exact HA | exact HP].
  - destruct (C1_CommandContext_descriptor LookPath (mkHost false true false false)
                (WithForceNoNsenter Background true) "./toolX" ["list"] initial)
      as [Hdirect _].
    destruct (Hdirect (or_intror eq_refl)) as (_ & Ha & HA & HP).
    split; [exact Ha|]. split; [exact HA | exact HP].
  - destruct (C1_CommandContext_descriptor LookPath (mkHost false true false false)
                Background "toolX" ["list"] initial) as [_ Hns].
    destruct (Hns (conj eq_refl eq_refl)) as (_ & _ & HA & HP).
    split; [exact HP | exact HA].
Defined.

(** ** Independence of the setters *)

(** C2: setting one configuration field should leave the getters of the
    others unchanged; the code loses the wait delay.  On the background
    context, with the package defaults, a wait delay of five seconds
    followed by the default volume group [vg0] reads back as the default
    wait delay 0, not as five seconds: [waitDelayKey] and
    [defaultVolumeGroupKey] are the same key, so the getter finds the
    volume-group string where it looks for a duration. *)
Theorem C2_wait_delay_lost_behind_volume_group :
  let d := 5000000000%Z in
  let ctx := WithDefaultVolumeGroup (SetProcessCancelWaitDelay Background d) "vg0" in
  Value ctx waitDelayKey = Some (Str "vg0") /\
  GetProcessCancelWaitDelay initial ctx = 0%Z /\
  GetProcessCancelWaitDelay initial ctx <> d /\
  DefaultVolumeGroup ctx = "vg0".
Proof. repeat split. discriminate. Qed.

(** ** Whether nsenter is used *)

(** C3: [WillUseNsenter] answers [IsContainerized(c) && !shouldForceNoNsenter(c)]
    (and leaves the package state as [IsContainerized] leaves it); on a
    context derived with [WithForceNoNsenter(c, true)] the answer is
    [false], whatever the containerization state. *)
Theorem C3_WillUseNsenter (h : Host) (c : Context) (g : Globals) :
  WillUseNsenter h c g
  = (fst (IsContainerized h c g) && negb (shouldForceNoNsenter c),
     snd (IsContainerized h c g)) /\
  fst (WillUseNsenter h (WithForceNoNsenter c true) g) = false.
Proof.
  unfold WillUseNsenter. split.
  - now destruct (IsContainerized h c g).
  - destruct (IsContainerized h (WithForceNoNsenter c true) g) as [b g'].
    rewrite shouldForceNoNsenter_WithForceNoNsenter. simpl. apply andb_false_r.
Qed.

(** What [WillUseNsenter] announces is what [CommandContext] does. *)
Lemma WillUseNsenter_CommandContext (h : Host) (ctx : Context) (cmd : string)
    (args : list string) (g : Globals) :
  fst (WillUseNsenter h ctx g) = true <->
  cmd_name (fst (CommandContext h ctx cmd args g)) = nsenter /\
  cmd_arg (fst (CommandContext h ctx cmd args g)) = (nsenterArgs cmd ++ args)%list.
Proof.
  pose proof (CommandContext_operands h ctx cmd args g) as H. simpl in H.
  unfold WillUseNsenter.
  destruct (IsContainerized h ctx g) as [b g'] eqn:E. simpl in *.
  pose proof (f_equal fst H) as Hn. pose proof (f_equal snd H) as Ha.
  clear H. simpl in Hn, Ha.
  destruct (b && negb (shouldForceNoNsenter ctx)); simpl in Hn, Ha.
  - split; auto.
  - split; [discriminate|]. intros [_ Hargs]. rewrite Hargs in Ha.
    apply (f_equal (@List.length string)) in Ha.
    unfold nsenterArgs in Ha. simpl in Ha. lia.
Qed.

(** ** The decorator *)

(** C4: every method of the no-nsenter decorator returns exactly what the
    wrapped client's method returns for the context
    [WithForceNoNsenter(ctx, true)] and the same operands; a decorator
    wraps a decorator in the same way, and the context the innermost
    client receives forces no nsenter. *)
Theorem C4_noNsenterClient_delegates
    (Operands Returns : Client.Method -> Type)
    (c : Client.Client Operands Returns) (m : Client.Method)
    (ctx : Context) (operands : Operands m) :
  Client.WithNoNsenter Operands Returns c m ctx operands
  = c m (WithForceNoNsenter ctx true) operands /\
  Client.WithNoNsenter Operands Returns (Client.WithNoNsenter Operands Returns c) m ctx operands
  = c m (WithForceNoNsenter (WithForceNoNsenter ctx true) true) operands /\
  shouldForceNoNsenter (WithForceNoNsenter ctx true) = true /\
  shouldForceNoNsenter (WithForceNoNsenter (WithForceNoNsenter ctx true) true) = true.
Proof. repeat split. Qed.

(** A client whose [VGs] builds its command with [CommandContext] runs the
    tool itself when called through the decorator, also in a container. *)
Example decorated_client_runs_directly :
  let Operands := fun _ : Client.Method => list string in
  let Returns := fun _ : Client.Method => Cmd in
  let base : Client.Client Operands Returns :=
    fun m ctx operands =>
      fst (CommandContext (mkHost true false false false) ctx "lvm" operands initial) in
  cmd_name (base Client.VGs Background ["vgs"]) = "/usr/bin/nsenter" /\
  cmd_name (Client.WithNoNsenter Operands Returns base Client.VGs Background ["vgs"]) = "lvm".
Proof. split; reflexivity. Qed.

(** ** The environment of the subprocess *)

Lemma dedupEnv_loop_key (k : string) (env saw : list string) :
  filter (hasKey k) (dedupEnv_loop env saw)
  = if existsb (String.eqb k) saw then []
    else match find (fun kv => negb (hasNUL kv) && hasKey k kv) env with
         | Some kv => [kv]
         | None => []
         end.
Proof.
  revert saw. induction env as [|kv rest IH]; intros saw; simpl.
  - now destruct (existsb (String.eqb k) saw).
  - unfold hasKey at 2.
    destruct (hasNUL kv); simpl; [apply IH|].
    destruct (envKey kv) as [k'|] eqn:Ek.
    + destruct (String.eqb k' k) eqn:Ekk.
      * apply String.eqb_eq in Ekk. subst k'.
        destruct (existsb (String.eqb k) saw) eqn:Es.
        -- rewrite IH, Es. reflexivity.
        -- simpl. unfold hasKey at 1. rewrite Ek, String.eqb_refl.
           rewrite IH. simpl. rewrite String.eqb_refl. reflexivity.
      * destruct (existsb (String.eqb k') saw) eqn:Es; [apply IH|].
        simpl. unfold hasKey at 1. rewrite Ek, Ekk.
        rewrite IH. simpl.
        rewrite String.eqb_sym, Ekk. reflexivity.
    + destruct (String.eqb kv ""); [apply IH|].
      simpl. unfold hasKey at 1. rewrite Ek. apply IH.
Qed.

(** After [dedupEnv] a key has at most one entry: the last of the
    environment. *)
Lemma dedupEnv_key (k : string) (env : list string) :
  filter (hasKey k) (dedupEnv env)
  = match lastEntry k env with
    | Some kv => [kv]
    | None => []
    end.
Proof.
  unfold dedupEnv, lastEntry. rewrite filter_rev, dedupEnv_loop_key. simpl.
  now destruct (find _ (rev env)).
Qed.

Lemma dedupEnv_loop_In (kv : string) (env saw : list string) :
  In kv (dedupEnv_loop env saw) -> In kv env.
Proof.
  revert saw. induction env as [|x rest IH]; intros saw; simpl; [auto|].
  destruct (hasNUL x); [eauto|].
  destruct (envKey x) as [k|].
  - destruct (existsb (String.eqb k) saw); simpl; [eauto|].
    intros [H|H]; eauto.
  - destruct (String.eqb x ""); simpl; [eauto|].
    intros [H|H]; eauto.
Qed.

(** [dedupEnv] adds nothing. *)
Lemma dedupEnv_In (kv : string) (env : list string) :
  In kv (dedupEnv env) -> In kv env.
Proof.
  unfold dedupEnv. intros H. apply in_rev in H.
  apply dedupEnv_loop_In in H. now apply in_rev.
Qed.

Lemma find_app_Some {A : Type} (f : A -> bool) (l1 l2 : list A) (x : A) :
  find f l1 = Some x -> find f (l1 ++ l2) = Some x.
Proof.
  induction l1 as [|y l1 IH]; simpl; [discriminate|].
  destruct (f y); auto.
Qed.

Example Environ_keeps_last :
  Environ ["PATH=/usr/bin"]
    (fst (CommandContext (mkHost false false false false)
            (WithCustomEnvironment Background
               (Some [("LC_ALL", "de_DE.UTF-8"); ("FOO", "bar")]))
            "lvm" ["vgs"] (SetUseStandardLocale true initial)))
  = ["LC_ALL=de_DE.UTF-8"; "FOO=bar"].
Proof. reflexivity. Qed.

(** C5, as stated, fails: a custom environment replaces the inherited
    one.  With the parent environment [PATH=/usr/bin] and the custom
    environment [FOO=bar], the subprocess is started with [FOO=bar] alone,
    not with [PATH=/usr/bin] followed by [FOO=bar]. *)
Lemma C5_custom_environment_replaces_inherited :
  let parent := ["PATH=/usr/bin"] in
  let ctx := WithCustomEnvironment Background (Some [("FOO", "bar")]) in
  let c := fst (CommandContext (mkHost false false false false) ctx "lvm" ["vgs"] initial) in
  Environ parent c = ["FOO=bar"] /\
  Environ parent c <> (parent ++ automaticEntries initial ctx ++ customEntries ctx)%list /\
  ~ In "PATH=/usr/bin" (Environ parent c).
Proof.
  cbv zeta. split; [reflexivity|]. split.
  - discriminate.
  - vm_compute. intros [H|[]]. discriminate H.
Qed.

(** C5, amended: the [Env] of a built command holds the automatic entries
    (the default-volume-group variable, then [LC_ALL=C] when the standard
    locale is enabled) followed by the custom entries, and nothing else.
    The parent's environment is not part of it: the subprocess gets the
    parent's environment only when no entry at all was added, and
    otherwise nothing but entries of [Env].  On a key collision the custom
    entry wins: for a key that a custom entry has, the one entry of that
    key that the subprocess gets is the last such custom entry, never an
    automatic one. *)
Theorem C5_CommandContext_environment (h : Host) (ctx : Context) (cmd : string)
    (args : list string) (g : Globals) (parent : list string) :
  let c := fst (CommandContext h ctx cmd args g) in
  Env c = (automaticEntries g ctx ++ customEntries ctx)%list /\
  Environ parent c
  = dedupEnv match (automaticEntries g ctx ++ customEntries ctx)%list with
             | [] => parent
             | e => e
             end /\
  ((automaticEntries g ctx ++ customEntries ctx)%list <> [] ->
   forall kv, In kv (Environ parent c) ->
              In kv (automaticEntries g ctx) \/ In kv (customEntries ctx)) /\
  (forall k kv,
     lastEntry k (customEntries ctx) = Some kv ->
     In kv (customEntries ctx) /\
     filter (hasKey k) (Environ parent c) = [kv]).
Proof.
  intros c. subst c. unfold Environ.
  rewrite (CommandContext_Env h ctx cmd args g).
  split; [reflexivity|]. split; [reflexivity|]. split.
  - intros Hne kv Hin. apply dedupEnv_In in Hin.
    destruct (automaticEntries g ctx ++ customEntries ctx)%list as [|x l] eqn:E;
      [contradiction|].
    rewrite <- E in Hin. now apply in_app_or.
  - intros k kv Hlast. split.
    + unfold lastEntry in Hlast. apply find_some in Hlast as [Hin _].
      now apply in_rev.
    + rewrite dedupEnv_key.
      assert (Hne : customEntries ctx <> []).
      { intros E. rewrite E in Hlast. discriminate Hlast. }
      assert (Hall : lastEntry k (automaticEntries g ctx ++ customEntries ctx) = Some kv).
      { unfold lastEntry. rewrite rev_app_distr. now apply find_app_Some. }
      destruct (automaticEntries g ctx ++ customEntries ctx)%list as [|x l] eqn:E.
      * apply app_eq_nil in E as [_ E]. contradiction.
      * now rewrite Hall.
Qed.

Lemma C5_CommandContext_environment_witness :
  let ctx := WithCustomEnvironment Background
               (Some [("LC_ALL", "de_DE.UTF-8"); ("FOO", "bar")]) in
  let c := fst (CommandContext (mkHost false false false false) ctx "lvm" ["vgs"]
                  (SetUseStandardLocale true initial)) in
  Env c = ["LC_ALL=C"; "LC_ALL=de_DE.UTF-8"; "FOO=bar"] /\
  filter (hasKey "LC_ALL") (Environ ["PATH=/usr/bin"; "LC_ALL=en_US.UTF-8"] c)
  = ["LC_ALL=de_DE.UTF-8"].
Proof.
  intros ctx c.
  destruct (C5_CommandContext_environment (mkHost false false false false) ctx
              "lvm" ["vgs"] (SetUseStandardLocale true initial)
              ["PATH=/usr/bin"; "LC_ALL=en_US.UTF-8"]) as (HE & _ & _ & Hwin).
  split; [exact HE|].
  exact (proj2 (Hwin "LC_ALL" "LC_ALL=de_DE.UTF-8" eq_refl)).
Defined.

(** ** Rendering *)

Lemma AsArgs_asResult (F : FieldArguments) (list : VGReduceOptionsList) :
  AsArgs F list
  = asResult (VGReduceOptions_ApplyToArgs F (aggregate list) (NewArgs ArgsTypeGeneric)).
Proof. reflexivity. Qed.

(** [AsArgs] hands out an argument list exactly when it reports no error. *)
Lemma AsArgs_list_xor_error (F : FieldArguments) (list : VGReduceOptionsList) :
  (exists args, AsArgs F list = (Some args, None)) \/
  (exists err, AsArgs F list = (None, Some err)).
Proof.
  rewrite AsArgs_asResult.
  destruct (VGReduceOptions_ApplyToArgs F (aggregate list) (NewArgs ArgsTypeGeneric))
    as [args [err|]]; simpl; eauto.
Qed.

Lemma length_zero_nil {A : Type} (l : list A) :
  Nat.eqb (length l) 0 = true <-> l = [].
Proof. destruct l; simpl; split; intros H; try reflexivity; discriminate. Qed.

Example AsArgs_renders_in_order :
  AsArgs sampleFieldArguments
    [ OptPhysicalVolumeNames ["/dev/sda"; "/dev/sdb"]; OptForce true;
      OptVolumeGroupName "vg0"; OptRemoveMissing true ]
  = (Some ["--removemissing"; "vg0"; "/dev/sda"; "/dev/sdb"; "--force"; "--yes"], None).
Proof. reflexivity. Qed.

Example AsArgs_requires_volume_group :
  AsArgs sampleFieldArguments [ OptPhysicalVolumeNames ["/dev/sda"]; OptForce true ]
  = (None, Some "VolumeGroupName is required for extension of a volume group").
Proof. reflexivity. Qed.

(** C6: [AsArgs] returns an error and no argument list when the aggregated
    volume-group name is empty, or when there is no physical-volume name
    and [RemoveMissing] is false; then nothing is rendered (the argument
    list is left as it was, whatever the field renderers are).  Otherwise
    the fields are rendered in the order [RemoveMissing],
    [VolumeGroupName], [PhysicalVolumeNames], [Force], [CommonOptions].  An
    error never comes with an argument list. *)
Theorem C6_VGReduce_AsArgs (F : FieldArguments) (list : VGReduceOptionsList) :
  let options := aggregate list in
  (vgr_VolumeGroupName options = "" ->
   AsArgs F list = (None, Some errVolumeGroupNameRequired) /\
   forall args, VGReduceOptions_ApplyToArgs F options args
                = (args, Some errVolumeGroupNameRequired)) /\
  (vgr_VolumeGroupName options <> "" ->
   vgr_PhysicalVolumeNames options = [] /\ vgr_RemoveMissing options = false ->
   AsArgs F list = (None, Some errPhysicalVolumeNameRequired) /\
   forall args, VGReduceOptions_ApplyToArgs F options args
                = (args, Some errPhysicalVolumeNameRequired)) /\
  (vgr_VolumeGroupName options <> "" ->
   vgr_PhysicalVolumeNames options <> [] \/ vgr_RemoveMissing options = true ->
   AsArgs F list
   = asResult
       (ApplyEach
          [ RemoveMissing_ApplyToArgs F (vgr_RemoveMissing options);
            VolumeGroupName_ApplyToArgs F (vgr_VolumeGroupName options);
            PhysicalVolumeNames_ApplyToArgs F (vgr_PhysicalVolumeNames options);
            Force_ApplyToArgs F (vgr_Force options);
            CommonOptions_ApplyToArgs F (vgr_CommonOptions options) ]
          (NewArgs ArgsTypeGeneric))) /\
  (forall err, snd (AsArgs F list) = Some err -> fst (AsArgs F list) = None).
Proof.
  intros options. rewrite AsArgs_asResult. fold options.
  unfold VGReduceOptions_ApplyToArgs.
  split; [|split; [|split]].
  - intros Hvg. rewrite Hvg. split; reflexivity.
  - intros Hvg [Hpv Hrm].
    apply String.eqb_neq in Hvg. rewrite Hvg, Hpv, Hrm. split; reflexivity.
  - intros Hvg Hsome. apply String.eqb_neq in Hvg. rewrite Hvg.
    assert (Hb : Nat.eqb (length (vgr_PhysicalVolumeNames options)) 0
                 && negb (vgr_RemoveMissing options) = false).
    { destruct Hsome as [Hpv | Hrm].
      - destruct (Nat.eqb (length (vgr_PhysicalVolumeNames options)) 0) eqn:E;
          [|reflexivity].
        apply length_zero_nil in E. contradiction.
      - rewrite Hrm. apply andb_false_r. }
    rewrite Hb. reflexivity.
  - intros err.
    match goal with
    | |- context [asResult ?r] => destruct r as [args [e|]]
    end; simpl; [reflexivity | discriminate].
Qed.

Lemma C6_VGReduce_AsArgs_witness :
  AsArgs sampleFieldArguments [] = (None, Some errVolumeGroupNameRequired) /\
  AsArgs sampleFieldArguments [OptVolumeGroupName "vg0"]
  = (None, Some errPhysicalVolumeNameRequired) /\
  AsArgs sampleFieldArguments [OptVolumeGroupName "vg0"; OptPhysicalVolumeNames ["/dev/sdb"]]
  = (Some ["vg0"; "/dev/sdb"; "--yes"], None).
Proof.
  split; [|split].
  - destruct (C6_VGReduce_AsArgs sampleFieldArguments []) as (H & _).
    exact (proj1 (H eq_refl)).
  - destruct (C6_VGReduce_AsArgs sampleFieldArguments [OptVolumeGroupName "vg0"])
      as (_ & H & _).
    refine (proj1 (H _ (conj eq_refl eq_refl))). discriminate.
  - destruct (C6_VGReduce_AsArgs sampleFieldArguments
                [OptVolumeGroupName "vg0"; OptPhysicalVolumeNames ["/dev/sdb"]])
      as (_ & _ & H & _).
    rewrite H.
    + reflexivity.
    + discriminate.
    + left. discriminate.
Defined.

(** ** Aggregation *)

Lemma aggregate_app (l1 l2 : VGReduceOptionsList) :
  aggregate (l1 ++ l2)%list
  = fold_left (fun options opt => ApplyToVGReduceOptions opt options) l2 (aggregate l1).
Proof. unfold aggregate. apply fold_left_app. Qed.

Lemma agree_off_refl (k : Kind) (a : VGReduceOptions) : agree_off k a a.
Proof. unfold agree_off. repeat split; auto. Qed.

(** An option changes nothing outside the fields of its kind. *)
Lemma agree_off_ApplyTo (opt : VGReduceOption) (s : VGReduceOptions) :
  agree_off (kind opt) (ApplyToVGReduceOptions opt s) s.
Proof. destruct opt; unfold agree_off; simpl; repeat split; auto. Qed.

(** Structs that agree outside a kind still do after any option. *)
Lemma agree_off_step (k : Kind) (opt : VGReduceOption) (a b : VGReduceOptions) :
  agree_off k a b ->
  agree_off k (ApplyToVGReduceOptions opt a) (ApplyToVGReduceOptions opt b).
Proof.
  unfold agree_off. intros (H1 & H2 & H3 & H4 & H5).
  destruct opt; simpl; repeat split; auto.
Qed.

Lemma agree_off_fold (k : Kind) (l : VGReduceOptionsList) (a b : VGReduceOptions) :
  agree_off k a b ->
  agree_off k
    (fold_left (fun options opt => ApplyToVGReduceOptions opt options) l a)
    (fold_left (fun options opt => ApplyToVGReduceOptions opt options) l b).
Proof.
  revert a b. induction l as [|opt l IH]; intros a b H; simpl; [exact H|].
  apply IH. now apply agree_off_step.
Qed.

(** An option overwrites the fields of its kind, so it brings structs that
    agree elsewhere to the same struct. *)
Lemma ApplyTo_overwrites (opt : VGReduceOption) (a b : VGReduceOptions) :
  agree_off (kind opt) a b ->
  ApplyToVGReduceOptions opt a = ApplyToVGReduceOptions opt b.
Proof.
  unfold agree_off. intros (H1 & H2 & H3 & H4 & H5).
  destruct opt; simpl in *; [ | | | | | reflexivity];
    repeat match goal with
           | H : _ \/ _ |- _ => destruct H as [H|H]; try discriminate H
           end;
    congruence.
Qed.

Lemma reflects_ApplyTo (opt : VGReduceOption) (s : VGReduceOptions) :
  reflects opt (ApplyToVGReduceOptions opt s).
Proof. destruct opt; reflexivity. Qed.

(** An option that does not touch [b] keeps what [b] wrote. *)
Lemma reflects_step (b opt : VGReduceOption) (s : VGReduceOptions) :
  touches opt b = false ->
  reflects b s -> reflects b (ApplyToVGReduceOptions opt s).
Proof. destruct b, opt; simpl; intros Ht H; try discriminate Ht; exact H. Qed.

Lemma reflects_fold (b : VGReduceOption) (l : VGReduceOptionsList) (s : VGReduceOptions) :
  forallb (fun opt => negb (touches opt b)) l = true ->
  reflects b s ->
  reflects b (fold_left (fun options opt => ApplyToVGReduceOptions opt options) l s).
Proof.
  revert s. induction l as [|opt l IH]; intros s Hl H; simpl; [exact H|].
  simpl in Hl. apply andb_true_iff in Hl as [Ho Hl].
  apply IH; [exact Hl|]. apply reflects_step; [|exact H].
  now apply negb_true_iff.
Qed.

(** Two options of one kind that a struct both reflects are the same
    option. *)
Lemma reflects_same_kind (a b : VGReduceOption) (s : VGReduceOptions) :
  kind a = kind b -> reflects a s -> reflects b s -> a = b.
Proof. destruct a, b; simpl; intros Hk Ha Hb; try discriminate Hk; congruence. Qed.

Example aggregate_last_wins :
  aggregate [OptVolumeGroupName "vg0"; OptForce true; OptVolumeGroupName "vg1"]
  = aggregate [OptForce true; OptVolumeGroupName "vg1"] /\
  AsArgs sampleFieldArguments
    [OptVolumeGroupName "vg0"; OptRemoveMissing true; OptVolumeGroupName "vg1"]
  = (Some ["--removemissing"; "vg1"; "--yes"], None).
Proof. split; reflexivity. Qed.

Lemma reflects_fixed (opt : VGReduceOption) (s : VGReduceOptions) :
  reflects opt s -> ApplyToVGReduceOptions opt s = s.
Proof. destruct opt, s; simpl; intros H; subst; reflexivity. Qed.

(** C7, as stated, fails: a list can hold [A] and then [B] of one kind and
    still aggregate to neither.  A whole options struct given as a later
    option overwrites every field ([*new = *opts]): after the names [vg0]
    and [vg1], the struct with the name [vg2] leaves [vg2] in the
    aggregated struct and in the rendering, not [vg1]. *)
Lemma C7_later_whole_struct_overwrites :
  let A := OptVolumeGroupName "vg0" in
  let B := OptVolumeGroupName "vg1" in
  let whole :=
    OptVGReduceOptions
      {| vgr_VolumeGroupName := "vg2"; vgr_PhysicalVolumeNames := ["/dev/sdb"];
         vgr_RemoveMissing := false; vgr_Force := false;
         vgr_CommonOptions := CommonOptions_zero |} in
  kind A = kind B /\
  vgr_VolumeGroupName (aggregate [A; B; whole]) = "vg2" /\
  ~ reflects B (aggregate [A; B; whole]) /\
  AsArgs sampleFieldArguments [A; B; whole] = (Some ["vg2"; "/dev/sdb"; "--yes"], None).
Proof.
  cbv zeta. split; [reflexivity|]. split; [reflexivity|]. split.
  - simpl. discriminate.
  - reflexivity.
Qed.

(** C7, amended: aggregation is last-wins among the options that write a
    field.  When a list holds an option [A] and, later, an option [B] of
    the same kind, and no option after [B] writes what [B] writes (no
    option of [B]'s kind and no whole options struct), the options struct
    handed to validation and rendering holds [B]'s value, and not [A]'s
    when the two differ; what [AsArgs] returns is the rendering of that
    struct, which applying [B] once more leaves as it is, and it is what
    [AsArgs] returns for the list without [A]. *)
Theorem C7_aggregation_last_wins (F : FieldArguments)
    (pre mid post : VGReduceOptionsList) (A B : VGReduceOption) :
  kind A = kind B ->
  forallb (fun opt => negb (touches opt B)) post = true ->
  let list := (pre ++ A :: mid ++ B :: post)%list in
  reflects B (aggregate list) /\
  (A <> B -> ~ reflects A (aggregate list)) /\
  aggregate list = aggregate (pre ++ mid ++ B :: post)%list /\
  AsArgs F list
  = asResult (VGReduceOptions_ApplyToArgs F
                (ApplyToVGReduceOptions B (aggregate list)) (NewArgs ArgsTypeGeneric)) /\
  AsArgs F list = AsArgs F (pre ++ mid ++ B :: post)%list.
Proof.
  intros Hk Hpost list.
  assert (Hagg : aggregate list = aggregate (pre ++ mid ++ B :: post)%list).
  { unfold list.
    rewrite !aggregate_app. simpl. rewrite !fold_left_app. simpl.
    f_equal. apply ApplyTo_overwrites. rewrite <- Hk.
    apply agree_off_fold, agree_off_ApplyTo. }
  assert (HB : reflects B (aggregate list)).
  { unfold list. rewrite aggregate_app. simpl. rewrite fold_left_app. simpl.
    apply reflects_fold; [exact Hpost | apply reflects_ApplyTo]. }
  split; [exact HB|]. split; [|split; [exact Hagg|split]].
  - intros Hneq HA. apply Hneq. exact (reflects_same_kind A B _ Hk HA HB).
  - rewrite (reflects_fixed B _ HB). apply AsArgs_asResult.
  - rewrite !AsArgs_asResult. now rewrite Hagg.
Qed.

Lemma C7_aggregation_last_wins_witness :
  let list := [OptForce true; OptVolumeGroupName "vg0"; OptRemoveMissing true;
               OptVolumeGroupName "vg1"; OptPhysicalVolumeNames ["/dev/sdb"]] in
  vgr_VolumeGroupName (aggregate list) = "vg1" /\
  AsArgs sampleFieldArguments list
  = (Some ["--removemissing"; "vg1"; "/dev/sdb"; "--force"; "--yes"], None).
Proof.
  destruct (C7_aggregation_last_wins sampleFieldArguments
              [OptForce true] [OptRemoveMissing true]
              [OptPhysicalVolumeNames ["/dev/sdb"]]
              (OptVolumeGroupName "vg0") (OptVolumeGroupName "vg1")
              eq_refl eq_refl) as (HB & _ & _ & HR & _).
  split; [exact HB | exact HR].
Defined.

(** ** Confirmation and profile *)

Lemma In_AddOrReplace (args : Arguments) (tok : string) :
  In tok (GetRaw (AddOrReplace args tok)).
Proof. unfold GetRaw, AddOrReplace. apply in_or_app. right. now left. Qed.

(** A token that is added or replaced ends up last, and only there. *)
Lemma AddOrReplace_once (args : Arguments) (tok : string) :
  AddOrReplace args tok = (remove tok args ++ [tok])%list /\
  ~ In tok (remove tok args).
Proof.
  split; [reflexivity|].
  unfold remove. intros H. apply filter_In in H as [_ H].
  now rewrite String.eqb_refl in H.
Qed.

(** When a sequence of renderings succeeds, so did the last of them, on
    the list the others left. *)
Lemma ApplyEach_last (l : list Argument) (last : Argument) (args args' : Arguments) :
  ApplyEach (l ++ [last]) args = (args', None) ->
  exists mid, ApplyEach l args = (mid, None) /\ last mid = (args', None).
Proof.
  revert args. induction l as [|a l IH]; intros args H; simpl in *.
  - exists args. split; [reflexivity|].
    destruct (last args) as [x [e|]]; [discriminate H | exact H].
  - destruct (a args) as [x [e|]]; [discriminate H|]. now apply IH.
Qed.

Lemma CommonOptions_yes (F : FieldArguments) (opts : CommonOptions)
    (args args' : Arguments) :
  co_RequestConfirm opts = false ->
  CommonOptions_ApplyToArgs F opts args = (args', None) ->
  In "--yes" (GetRaw args').
Proof.
  intros Hrc H. unfold CommonOptions_ApplyToArgs in H.
  change [Devices_ApplyToArgs F (co_Devices opts);
          DevicesFile_ApplyToArgs F (co_DevicesFile opts);
          Verbose_ApplyToArgs (co_Verbose opts);
          RequestConfirm_ApplyToArgs (co_RequestConfirm opts)]
    with ([Devices_ApplyToArgs F (co_Devices opts);
           DevicesFile_ApplyToArgs F (co_DevicesFile opts);
           Verbose_ApplyToArgs (co_Verbose opts)]
          ++ [RequestConfirm_ApplyToArgs (co_RequestConfirm opts)])%list in H.
  apply ApplyEach_last in H as (mid & _ & Hlast).
  rewrite Hrc in Hlast. simpl in Hlast. inversion Hlast. apply In_AddOrReplace.
Qed.

Lemma VGReduceOptions_yes (F : FieldArguments) (opts : VGReduceOptions)
    (args args' : Arguments) :
  co_RequestConfirm (vgr_CommonOptions opts) = false ->
  VGReduceOptions_ApplyToArgs F opts args = (args', None) ->
  In "--yes" (GetRaw args').
Proof.
  intros Hrc H. unfold VGReduceOptions_ApplyToArgs in H.
  destruct (String.eqb (vgr_VolumeGroupName opts) ""); [discriminate H|].
  destruct (Nat.eqb (length (vgr_PhysicalVolumeNames opts)) 0
            && negb (vgr_RemoveMissing opts)); [discriminate H|].
  unfold VGReduceOptions_fields in H.
  change [RemoveMissing_ApplyToArgs F (vgr_RemoveMissing opts);
          VolumeGroupName_ApplyToArgs F (vgr_VolumeGroupName opts);
          PhysicalVolumeNames_ApplyToArgs F (vgr_PhysicalVolumeNames opts);
          Force_ApplyToArgs F (vgr_Force opts);
          CommonOptions_ApplyToArgs F (vgr_CommonOptions opts)]
    with ([RemoveMissing_ApplyToArgs F (vgr_RemoveMissing opts);
           VolumeGroupName_ApplyToArgs F (vgr_VolumeGroupName opts);
           PhysicalVolumeNames_ApplyToArgs F (vgr_PhysicalVolumeNames opts);
           Force_ApplyToArgs F (vgr_Force opts)]
          ++ [CommonOptions_ApplyToArgs F (vgr_CommonOptions opts)])%list in H.
  apply ApplyEach_last in H as (mid & _ & Hlast).
  exact (CommonOptions_yes F _ mid args' Hrc Hlast).
Qed.

Example zero_options_say_yes :
  CommonOptions_ApplyToArgs sampleFieldArguments CommonOptions_zero (NewArgs ArgsTypeGeneric)
  = (["--yes"], None).
Proof. reflexivity. Qed.

(** C9: [RequestConfirm.ApplyToArgs] adds [--yes] when the option is
    false, which is its zero value, and adds nothing when it is true;
    so every successful rendering of a [CommonOptions], and of the
    vgreduce options that embed one, whose [RequestConfirm] is false holds
    [--yes]. *)
Theorem C9_RequestConfirm_yes_by_default (F : FieldArguments) (args : Arguments) :
  RequestConfirm_ApplyToArgs false args = (AddOrReplace args "--yes", None) /\
  In "--yes" (GetRaw (fst (RequestConfirm_ApplyToArgs false args))) /\
  RequestConfirm_ApplyToArgs true args = (args, None) /\
  co_RequestConfirm CommonOptions_zero = false /\
  co_RequestConfirm (vgr_CommonOptions VGReduceOptions_zero) = false /\
  (forall (opts : CommonOptions) (args' : Arguments),
     co_RequestConfirm opts = false ->
     CommonOptions_ApplyToArgs F opts args = (args', None) ->
     In "--yes" (GetRaw args')) /\
  (forall (list : VGReduceOptionsList) (args' : Arguments),
     co_RequestConfirm (vgr_CommonOptions (aggregate list)) = false ->
     AsArgs F list = (Some args', None) ->
     In "--yes" (GetRaw args')).
Proof.
  repeat split.
  - apply In_AddOrReplace.
  - intros opts args'. apply CommonOptions_yes.
  - intros list args' Hrc H. rewrite AsArgs_asResult in H.
    destruct (VGReduceOptions_ApplyToArgs F (aggregate list) (NewArgs ArgsTypeGeneric))
      as [a [e|]] eqn:E; simpl in H; [discriminate H|].
    inversion H; subst a.
    exact (VGReduceOptions_yes F _ _ _ Hrc E).
Qed.

Lemma C9_RequestConfirm_yes_by_default_witness :
  In "--yes" (GetRaw ["vg0"; "/dev/sdb"; "--yes"]).
Proof.
  destruct (C9_RequestConfirm_yes_by_default sampleFieldArguments [])
    as (_ & _ & _ & _ & _ & _ & H).
  apply (H [OptVolumeGroupName "vg0"; OptPhysicalVolumeNames ["/dev/sdb"]]).
  - reflexivity.
  - reflexivity.
Defined.

Example profile_is_not_rendered :
  CommonOptions_ApplyToArgs sampleFieldArguments
    {| co_Devices := ["/dev/sda"]; co_DevicesFile := "system.devices";
       co_Profile := "thin-performance"; co_Verbose := true;
       co_RequestConfirm := true |}
    (NewArgs ArgsTypeGeneric)
  = (["/dev/sda"; "system.devices"; "--verbose"], None).
Proof. reflexivity. Qed.

(** C10: [CommonOptions.ApplyToArgs] renders the fields [Devices],
    [DevicesFile], [Verbose] and [RequestConfirm], in that order, and
    nothing else: whatever is in [Profile], the rendering of the
    [CommonOptions], and of a vgreduce option list that carries it, is the
    same. *)
Theorem C10_CommonOptions_ignores_Profile (F : FieldArguments)
    (opts : CommonOptions) (p : Profile) (args : Arguments)
    (list : VGReduceOptionsList) :
  CommonOptions_ApplyToArgs F opts args
  = ApplyEach
      [ Devices_ApplyToArgs F (co_Devices opts);
        DevicesFile_ApplyToArgs F (co_DevicesFile opts);
        Verbose_ApplyToArgs (co_Verbose opts);
        RequestConfirm_ApplyToArgs (co_RequestConfirm opts) ] args /\
  CommonOptions_ApplyToArgs F (set_Profile p opts) args
  = CommonOptions_ApplyToArgs F opts args /\
  AsArgs F (list ++ [OptCommonOptions (set_Profile p opts)])%list
  = AsArgs F (list ++ [OptCommonOptions opts])%list.
Proof.
  split; [reflexivity|]. split; [reflexivity|].
  rewrite !AsArgs_asResult, !aggregate_app. simpl.
  reflexivity.
Qed.

(** * Further properties of the code *)

(** ** Detection, call after call *)

Lemma IsContainerized_calls_settled (calls : list (Host * Context)) (g : Globals) :
  detectContainerized g = true ->
  IsContainerized_calls calls g = (map (fun _ => isContainerized g) calls, g).
Proof.
  intros Hd. induction calls as [|[h ctx] rest IH]; simpl; [reflexivity|].
  unfold IsContainerized. rewrite Hd, IH. reflexivity.
Qed.

(** X1: in a package state in which detection has not run and the flag is
    still false, the first call of [IsContainerized] answers whether any
    of the four probes succeeds; every later call gives the same answer
    and leaves the state alone, whatever context it is given and whatever
    the probes would find by then. *)
Theorem X1_detection_runs_once (h : Host) (ctx : Context) (g : Globals)
    (later : list (Host * Context)) :
  detectContainerized g = false ->
  isContainerized g = false ->
  let first := IsContainerized h ctx g in
  fst first = (stat_dockerenv h || stat_containerenv h
               || env_KUBERNETES_SERVICE_HOST h || stat_serviceaccount_token h) /\
  fst (IsContainerized_calls later (snd first)) = map (fun _ => fst first) later /\
  snd (IsContainerized_calls later (snd first)) = snd first.
Proof.
  intros Hd Hi first.
  destruct (IsContainerized_state h ctx g) as (_ & _ & Hdone & Hflag).
  fold first in Hdone, Hflag.
  rewrite (IsContainerized_calls_settled later (snd first) Hdone), Hflag.
  split; [|split; reflexivity].
  unfold first, IsContainerized, detect. rewrite Hd, Hi. simpl.
  destruct (stat_dockerenv h), (stat_containerenv h),
    (env_KUBERNETES_SERVICE_HOST h), (stat_serviceaccount_token h); reflexivity.
Qed.

Lemma X1_detection_runs_once_witness :
  fst (IsContainerized (mkHost false false true false) Background initial) = true /\
  fst (IsContainerized_calls
         [(mkHost false false false false, Background);
          (mkHost true true true true, WithCancel Background)]
         (snd (IsContainerized (mkHost false false true false) Background initial)))
  = [true; true].
Proof.
  destruct (X1_detection_runs_once (mkHost false false true false) Background initial
              [(mkHost false false false false, Background);
               (mkHost true true true true, WithCancel Background)]
              eq_refl eq_refl) as (H1 & H2 & _).
  split; [exact H1 | exact H2].
Defined.

(** ** Contexts that other code has derived *)

Lemma Value_derive (ctx : Context) (ds : list Derivation) :
  Value (derive ctx ds) EmptyStruct = Value ctx EmptyStruct.
Proof.
  unfold derive. revert ctx.
  induction ds as [|d ds IH]; intros ctx; simpl; [reflexivity|].
  rewrite IH. destruct d; reflexivity.
Qed.

(** X2: on a context that carries no value of this package (the
    background context behind any number of cancellations and of values
    stored under other keys) every getter returns its default: the
    package's default wait delay, the empty volume-group name, the nil
    environment map, and no forcing. *)
Theorem X2_getters_default_when_unset (g : Globals) (ds : list Derivation) :
  let ctx := derive Background ds in
  GetProcessCancelWaitDelay g ctx = DefaultWaitDelay g /\
  DefaultVolumeGroup ctx = "" /\
  GetCustomEnvironment ctx = None /\
  shouldForceNoNsenter ctx = false.
Proof.
  intros ctx.
  unfold GetProcessCancelWaitDelay, DefaultVolumeGroup, GetCustomEnvironment,
    shouldForceNoNsenter, waitDelayKey, defaultVolumeGroupKey, envContextKey,
    forceNoNsenterKey, ctx.
  rewrite Value_derive. simpl. auto.
Qed.

(** X3: what a setter stores is what its getter reads back, also after the
    context has been derived further by cancellations and by values under
    other keys. *)
Theorem X3_setters_round_trip (g : Globals) (ctx : Context) (ds : list Derivation)
    (d : Z) (vg : string) (env : option EnvMap) (force : bool) :
  GetProcessCancelWaitDelay g (derive (SetProcessCancelWaitDelay ctx d) ds) = d /\
  DefaultVolumeGroup (derive (WithDefaultVolumeGroup ctx vg) ds) = vg /\
  GetCustomEnvironment (derive (WithCustomEnvironment ctx env) ds) = env /\
  shouldForceNoNsenter (derive (WithForceNoNsenter ctx force) ds) = force.
Proof.
  unfold GetProcessCancelWaitDelay, DefaultVolumeGroup, GetCustomEnvironment,
    shouldForceNoNsenter, waitDelayKey, defaultVolumeGroupKey, envContextKey,
    forceNoNsenterKey.
  rewrite !Value_derive. simpl. auto.
Qed.

(** The command depends on the context through the value under the
    package's key only. *)
Lemma CommandContext_Value (h : Host) (ctx ctx' : Context) (cmd : string)
    (args : list string) (g : Globals) :
  Value ctx EmptyStruct = Value ctx' EmptyStruct ->
  CommandContext h ctx cmd args g = CommandContext h ctx' cmd args g.
Proof.
  intros HV.
  unfold CommandContext, CommandWithCustomEnvironment, GetProcessCancelWaitDelay,
    DefaultVolumeGroup, GetCustomEnvironment, shouldForceNoNsenter,
    waitDelayKey, defaultVolumeGroupKey, envContextKey, forceNoNsenterKey.
  rewrite (IsContainerized_ctx h ctx ctx' g), HV. reflexivity.
Qed.

Lemma sameUpToMapOrder_refl (ctx : Context) : sameUpToMapOrder ctx ctx.
Proof.
  unfold sameUpToMapOrder.
  destruct (Value ctx EmptyStruct) as [[d|s|b|[env|]|t]|]; try reflexivity.
Qed.

(** Contexts that agree up to the order of the map agree on the three
    other fields and on the custom entries as a collection. *)
Lemma sameUpToMapOrder_getters (g : Globals) (ctx ctx' : Context) :
  sameUpToMapOrder ctx ctx' ->
  GetProcessCancelWaitDelay g ctx' = GetProcessCancelWaitDelay g ctx /\
  DefaultVolumeGroup ctx' = DefaultVolumeGroup ctx /\
  shouldForceNoNsenter ctx' = shouldForceNoNsenter ctx /\
  Permutation (customEntries ctx) (customEntries ctx').
Proof.
  unfold sameUpToMapOrder, GetProcessCancelWaitDelay, DefaultVolumeGroup,
    shouldForceNoNsenter, customEntries, GetCustomEnvironment,
    waitDelayKey, defaultVolumeGroupKey, envContextKey, forceNoNsenterKey.
  destruct (Value ctx EmptyStruct) as [[d|s|b|[env|]|t]|];
    destruct (Value ctx' EmptyStruct) as [[d'|s'|b'|[env'|]|t']|];
    simpl; intros H;
    match type of H with
    | Permutation _ _ =>
        repeat split; try reflexivity; now apply Permutation_map
    | _ =>
        try discriminate H; inversion H; subst;
        repeat split; try reflexivity; apply Permutation_refl
    end.
Qed.

Lemma CommandContext_state (h : Host) (ctx : Context) (cmd : string)
    (args : list string) (g : Globals) :
  snd (CommandContext h ctx cmd args g) = snd (IsContainerized h ctx g).
Proof.
  unfold CommandContext. now destruct (IsContainerized h ctx g).
Qed.

(** Two calls that see the same values, the same locale switch and default
    wait delay, and the same answer of the detection build the same
    command, up to the order of the custom entries. *)
Lemma CommandContext_same_values (h h' : Host) (ctx ctx' : Context) (cmd : string)
    (args : list string) (g g' : Globals) :
  sameUpToMapOrder ctx ctx' ->
  useStandardLocale g' = useStandardLocale g ->
  DefaultWaitDelay g' = DefaultWaitDelay g ->
  fst (IsContainerized h' ctx' g') = fst (IsContainerized h ctx g) ->
  let first := fst (CommandContext h ctx cmd args g) in
  let second := fst (CommandContext h' ctx' cmd args g') in
  cmd_name second = cmd_name first /\
  cmd_arg second = cmd_arg first /\
  WaitDelay second = WaitDelay first /\
  Env first = (automaticEntries g ctx ++ customEntries ctx)%list /\
  Env second = (automaticEntries g ctx ++ customEntries ctx')%list /\
  Permutation (customEntries ctx) (customEntries ctx').
Proof.
  intros Hsame Hl Hw Hc first second.
  destruct (sameUpToMapOrder_getters g ctx ctx' Hsame) as (Hd & Hvg & Hf & Hp).
  pose proof (CommandContext_operands h ctx cmd args g) as H1.
  pose proof (CommandContext_operands h' ctx' cmd args g') as H2.
  cbv zeta in H1, H2. fold first in H1. fold second in H2.
  rewrite Hc, Hf, <- H1 in H2.
  split; [exact (f_equal fst H2)|]. split; [exact (f_equal snd H2)|].
  split.
  { unfold first, second. rewrite !CommandContext_WaitDelay.
    rewrite <- Hd. unfold GetProcessCancelWaitDelay. now rewrite Hw. }
  split; [apply CommandContext_Env|]. split; [|exact Hp].
  unfold second. rewrite CommandContext_Env.
  unfold automaticEntries, UseStandardLocale. now rewrite Hl, Hvg.
Qed.

(** X4: values that other code stores in the context under keys of other
    types, and cancellations, change nothing about the name, the
    arguments, the wait delay and the environment entries of the command
    that [CommandContext] builds, nor about the package state it leaves;
    the custom entries come in the order in which the call happens to
    visit the map, so two calls agree on them up to their order. *)
Theorem X4_CommandContext_ignores_foreign_values (h : Host) (ctx ctx' : Context)
    (ds : list Derivation) (cmd : string) (args : list string) (g : Globals) :
  sameUpToMapOrder ctx ctx' ->
  let plain := CommandContext h ctx cmd args g in
  let derived := CommandContext h (derive ctx' ds) cmd args g in
  cmd_name (fst derived) = cmd_name (fst plain) /\
  cmd_arg (fst derived) = cmd_arg (fst plain) /\
  WaitDelay (fst derived) = WaitDelay (fst plain) /\
  snd derived = snd plain /\
  Env (fst plain) = (automaticEntries g ctx ++ customEntries ctx)%list /\
  Env (fst derived) = (automaticEntries g ctx ++ customEntries ctx')%list /\
  Permutation (customEntries ctx) (customEntries ctx') /\
  Permutation (Env (fst plain)) (Env (fst derived)).
Proof.
  intros Hsame plain derived.
  assert (Hd : sameUpToMapOrder ctx (derive ctx' ds)).
  { unfold sameUpToMapOrder in *. now rewrite Value_derive. }
  assert (Hc : customEntries (derive ctx' ds) = customEntries ctx').
  { unfold customEntries, GetCustomEnvironment, envContextKey.
    now rewrite Value_derive. }
  destruct (CommandContext_same_values h h ctx (derive ctx' ds) cmd args g g
              Hd eq_refl eq_refl eq_refl) as (H1 & H2 & H3 & H4 & H5 & H6).
  rewrite Hc in H5, H6.
  unfold plain, derived.
  repeat split; try assumption.
  - now rewrite !CommandContext_state.
  - rewrite H4, H5. now apply Permutation_app_head.
Qed.

Lemma X4_CommandContext_ignores_foreign_values_witness :
  let ctx := WithCustomEnvironment Background (Some [("A", "1"); ("B", "2")]) in
  let ctx' := WithCustomEnvironment Background (Some [("B", "2"); ("A", "1")]) in
  let plain := CommandContext (mkHost true false false false) ctx "lvm" ["vgs"] initial in
  let derived :=
    CommandContext (mkHost true false false false)
      (derive ctx' [DCancel; DValue 7 (Str "trace")]) "lvm" ["vgs"] initial in
  cmd_arg (fst derived) = cmd_arg (fst plain) /\
  Env (fst derived) = ["B=2"; "A=1"] /\
  Permutation (Env (fst plain)) (Env (fst derived)).
Proof.
  intros ctx ctx' plain derived.
  assert (Hsame : sameUpToMapOrder ctx ctx').
  { unfold sameUpToMapOrder. simpl. apply perm_swap. }
  destruct (X4_CommandContext_ignores_foreign_values (mkHost true false false false)
              ctx ctx' [DCancel; DValue 7 (Str "trace")] "lvm" ["vgs"] initial Hsame)
    as (_ & Ha & _ & _ & _ & He & _ & Hp).
  split; [exact Ha|]. split; [exact He | exact Hp].
Defined.

(** X5: the four configuration fields share one slot.  On every context at
    most one of them is set: when one getter returns a value other than
    its default, the three others return their defaults. *)
Theorem X5_one_field_at_a_time (g : Globals) (ctx : Context) :
  (GetProcessCancelWaitDelay g ctx <> DefaultWaitDelay g ->
   DefaultVolumeGroup ctx = "" /\ GetCustomEnvironment ctx = None /\
   shouldForceNoNsenter ctx = false) /\
  (DefaultVolumeGroup ctx <> "" ->
   GetProcessCancelWaitDelay g ctx = DefaultWaitDelay g /\
   GetCustomEnvironment ctx = None /\ shouldForceNoNsenter ctx = false) /\
  (GetCustomEnvironment ctx <> None ->
   GetProcessCancelWaitDelay g ctx = DefaultWaitDelay g /\
   DefaultVolumeGroup ctx = "" /\ shouldForceNoNsenter ctx = false) /\
  (shouldForceNoNsenter ctx = true ->
   GetProcessCancelWaitDelay g ctx = DefaultWaitDelay g /\
   DefaultVolumeGroup ctx = "" /\ GetCustomEnvironment ctx = None).
Proof.
  unfold GetProcessCancelWaitDelay, DefaultVolumeGroup, GetCustomEnvironment,
    shouldForceNoNsenter, waitDelayKey, defaultVolumeGroupKey, envContextKey,
    forceNoNsenterKey.
  destruct (Value ctx EmptyStruct) as [[d|s|b|m|t]|];
    (split; [|split; [|split]]); intros H;
    try (exfalso; apply H; reflexivity); try discriminate H;
    repeat split.
Qed.

Lemma X5_one_field_at_a_time_witness :
  let ctx := WithForceNoNsenter
               (WithCustomEnvironment (WithDefaultVolumeGroup Background "vg0")
                  (Some [("A", "1")])) true in
  GetProcessCancelWaitDelay initial ctx = 0%Z /\
  DefaultVolumeGroup ctx = "" /\ GetCustomEnvironment ctx = None.
Proof.
  exact (proj2 (proj2 (proj2
    (X5_one_field_at_a_time initial
       (WithForceNoNsenter
          (WithCustomEnvironment (WithDefaultVolumeGroup Background "vg0")
             (Some [("A", "1")])) true)))) eq_refl).
Defined.

(** ** Built commands *)

(** X6: the wait delay of a built command is the one the context carries,
    also behind further derivations, and the package's default when the
    context carries none; running the detection inside the call does not
    change it. *)
Theorem X6_CommandContext_wait_delay (h : Host) (ctx : Context)
    (ds : list Derivation) (d : Z) (cmd : string) (args : list string) (g : Globals) :
  WaitDelay (fst (CommandContext h (derive (SetProcessCancelWaitDelay ctx d) ds) cmd args g))
  = d /\
  WaitDelay (fst (CommandContext h (derive Background ds) cmd args g))
  = DefaultWaitDelay g.
Proof.
  rewrite !CommandContext_WaitDelay.
  unfold GetProcessCancelWaitDelay, waitDelayKey.
  rewrite !Value_derive. split; reflexivity.
Qed.

(** X7: building a command again, in the state the first build left,
    gives the same name, arguments and wait delay and the same state, even
    if the host's probes have changed in between: the choice between
    nsenter and the plain command is made once per process.  The
    environment holds the same automatic entries and the same custom
    entries; the second call visits the custom map in an order of its
    own. *)
Theorem X7_CommandContext_repeatable (h h' : Host) (ctx ctx' : Context) (cmd : string)
    (args : list string) (g : Globals) :
  sameUpToMapOrder ctx ctx' ->
  let first := CommandContext h ctx cmd args g in
  let second := CommandContext h' ctx' cmd args (snd first) in
  cmd_name (fst second) = cmd_name (fst first) /\
  cmd_arg (fst second) = cmd_arg (fst first) /\
  WaitDelay (fst second) = WaitDelay (fst first) /\
  snd second = snd first /\
  Env (fst first) = (automaticEntries g ctx ++ customEntries ctx)%list /\
  Env (fst second) = (automaticEntries g ctx ++ customEntries ctx')%list /\
  Permutation (customEntries ctx) (customEntries ctx').
Proof.
  intros Hsame first second.
  assert (Hst : snd first = snd (IsContainerized h ctx g)).
  { apply CommandContext_state. }
  destruct (IsContainerized_state h ctx g) as (Hl & Hw & _ & _).
  pose proof (IsContainerized_once h h' ctx ctx' g) as Honce.
  rewrite <- Hst in Hl, Hw, Honce.
  destruct (CommandContext_same_values h h' ctx ctx' cmd args g (snd first)
              Hsame Hl Hw (f_equal fst Honce)) as (H1 & H2 & H3 & H4 & H5 & H6).
  unfold second.
  repeat split; try assumption.
  rewrite CommandContext_state, Honce. reflexivity.
Qed.

Lemma X7_CommandContext_repeatable_witness :
  let ctx := WithCustomEnvironment Background (Some [("A", "1"); ("B", "2")]) in
  let ctx' := WithCustomEnvironment Background (Some [("B", "2"); ("A", "1")]) in
  let first := CommandContext (mkHost true false false false) ctx "lvm" ["vgs"] initial in
  let second := CommandContext (mkHost false false false false) ctx' "lvm" ["vgs"] (snd first) in
  cmd_name (fst second) = "/usr/bin/nsenter" /\
  Env (fst second) = ["B=2"; "A=1"].
Proof.
  intros ctx ctx' first second.
  assert (Hsame : sameUpToMapOrder ctx ctx').
  { unfold sameUpToMapOrder. simpl. apply perm_swap. }
  destruct (X7_CommandContext_repeatable (mkHost true false false false)
              (mkHost false false false false) ctx ctx' "lvm" ["vgs"] initial Hsame)
    as (Hn & _ & _ & _ & _ & He & _).
  split; [exact Hn | exact He].
Defined.

(** X8: [CommandWithCustomEnvironment] only appends to the environment of
    the command it is given: after the entries already there come
    [LC_ALL=C], when the standard locale is enabled, and then one entry
    [key=value] for each entry of the custom map, in the order of the
    loop, and nothing else; a nil or empty custom map adds nothing.  The
    command, its arguments and its wait delay stay as they were. *)
Theorem X8_CommandWithCustomEnvironment_appends (g : Globals) (ctx : Context) (c : Cmd) :
  let c' := CommandWithCustomEnvironment g ctx c in
  cmd_name c' = cmd_name c /\ cmd_arg c' = cmd_arg c /\ WaitDelay c' = WaitDelay c /\
  Env c'
  = (Env c
     ++ (if UseStandardLocale g then ["LC_ALL=C"] else [])
     ++ match GetCustomEnvironment ctx with
        | Some env => map (fun kv => (fst kv ++ "=" ++ snd kv)%string) env
        | None => []
        end)%list /\
  firstn (length (Env c)) (Env c') = Env c /\
  length (Env c')
  = (length (Env c)
     + (if UseStandardLocale g then 1 else 0)
     + match GetCustomEnvironment ctx with
       | Some env => length env
       | None => 0
       end)%nat.
Proof.
  intros c'.
  destruct (CommandWithCustomEnvironment_keeps g ctx c) as (H1 & H2 & H3).
  fold c' in H1, H2, H3.
  pose proof (CommandWithCustomEnvironment_Env g ctx c) as HE. fold c' in HE.
  repeat split; try assumption.
  - rewrite HE, firstn_app, Nat.sub_diag, firstn_all. simpl. apply app_nil_r.
  - rewrite HE, !length_app. unfold customEntries.
    destruct (GetCustomEnvironment ctx) as [env|];
      destruct (UseStandardLocale g); simpl; rewrite ?length_map; lia.
Qed.

Example CommandWithCustomEnvironment_appends_entries :
  Env (CommandWithCustomEnvironment (SetUseStandardLocale true initial)
         (WithCustomEnvironment Background (Some [("A", "1"); ("B", "")]))
         {| cmd_name := "lvm"; cmd_arg := ["vgs"]; Env := ["LVM_VG_NAME=vg0"];
            WaitDelay := 0 |})
  = ["LVM_VG_NAME=vg0"; "LC_ALL=C"; "A=1"; "B="].
Proof. reflexivity. Qed.

(** X9: without a custom environment, a built command carries [LC_ALL=C]
    exactly when the standard locale was switched on by the last
    [SetUseStandardLocale]; the switch has no influence on the
    detection. *)
Theorem X9_standard_locale_switch (h : Host) (ctx : Context) (cmd : string)
    (args : list string) (g : Globals) (use : bool) :
  GetCustomEnvironment ctx = None ->
  (In "LC_ALL=C" (Env (fst (CommandContext h ctx cmd args (SetUseStandardLocale use g))))
   <-> use = true) /\
  UseStandardLocale (SetUseStandardLocale use g) = use /\
  fst (IsContainerized h ctx (SetUseStandardLocale use g)) = fst (IsContainerized h ctx g).
Proof.
  intros Hnone. split; [|split; [reflexivity|]].
  2: { unfold IsContainerized, SetUseStandardLocale, detect. simpl.
       destruct (detectContainerized g); reflexivity. }
  rewrite CommandContext_Env.
  unfold customEntries, automaticEntries. rewrite Hnone, app_nil_r.
  unfold UseStandardLocale. simpl useStandardLocale.
  destruct (String.eqb (DefaultVolumeGroup ctx) ""); destruct use; simpl;
    split; intros H; try reflexivity; try discriminate H; auto;
    repeat match goal with
           | H : _ \/ _ |- _ => destruct H as [H|H]
           | H : False |- _ => destruct H
           | H : entry _ _ = _ |- _ => discriminate H
           end.
Qed.

Lemma X9_standard_locale_switch_witness :
  In "LC_ALL=C"
    (Env (fst (CommandContext (mkHost false false false false)
                 (WithDefaultVolumeGroup Background "vg0") "lvm" ["vgs"]
                 (SetUseStandardLocale true initial)))).
Proof.
  destruct (X9_standard_locale_switch (mkHost false false false false)
              (WithDefaultVolumeGroup Background "vg0") "lvm" ["vgs"] initial true
              eq_refl) as (H & _).
  apply H. reflexivity.
Defined.

(** ** Commands built behind the decorator *)

(** X10: a command built from the context that the decorator hands on is
    the command itself with its own arguments, on every host and in every
    package state; a context that went through the decorator twice builds
    the same command as one that went through it once. *)
Theorem X10_decorated_commands_run_directly
    (Operands Returns : Client.Method -> Type)
    (nc : Client.noNsenterClient Operands Returns)
    (h : Host) (ctx : Context) (cmd : string) (args : list string) (g : Globals) :
  let ctx' := Client.applyNoNsenter Operands Returns nc ctx in
  cmd_name (fst (CommandContext h ctx' cmd args g)) = cmd /\
  cmd_arg (fst (CommandContext h ctx' cmd args g)) = args /\
  CommandContext h (Client.applyNoNsenter Operands Returns nc ctx') cmd args g
  = CommandContext h ctx' cmd args g.
Proof.
  intros ctx'. unfold ctx', Client.applyNoNsenter.
  pose proof (CommandContext_operands h (WithForceNoNsenter ctx true) cmd args g) as H.
  cbv zeta in H.
  rewrite shouldForceNoNsenter_WithForceNoNsenter in H.
  simpl negb in H. rewrite andb_false_r in H.
  split; [exact (f_equal fst H)|]. split; [exact (f_equal snd H)|].
  apply CommandContext_Value. reflexivity.
Qed.

(** X11: the decorator stores its flag in the slot that the wait delay,
    the default volume group and the custom environment use as well.  A
    command built from the context it hands on therefore carries the
    package's default wait delay and, for its environment, [LC_ALL=C] when
    the standard locale is enabled and nothing else, whatever the caller
    had put into the context. *)
Theorem X11_decorator_hides_caller_configuration
    (Operands Returns : Client.Method -> Type)
    (nc : Client.noNsenterClient Operands Returns)
    (h : Host) (ctx : Context) (cmd : string) (args : list string) (g : Globals) :
  let c := fst (CommandContext h (Client.applyNoNsenter Operands Returns nc ctx) cmd args g) in
  WaitDelay c = DefaultWaitDelay g /\
  Env c = (if UseStandardLocale g then ["LC_ALL=C"] else []).
Proof.
  intros c. unfold c. rewrite CommandContext_WaitDelay, CommandContext_Env.
  unfold Client.applyNoNsenter. split; [reflexivity|].
  unfold automaticEntries, customEntries. simpl.
  destruct (UseStandardLocale g); reflexivity.
Qed.

(** ** Rendering loops *)

(** Rendering a sequence is rendering its first part and, if that
    succeeds, its second part on the list the first part left. *)
Lemma ApplyEach_app (l1 l2 : list Argument) (args : Arguments) :
  ApplyEach (l1 ++ l2) args
  = match ApplyEach l1 args with
    | (mid, None) => ApplyEach l2 mid
    | (mid, Some err) => (mid, Some err)
    end.
Proof.
  revert args. induction l1 as [|a l1 IH]; intros args; simpl; [reflexivity|].
  destruct (a args) as [x [e|]]; [reflexivity | apply IH].
Qed.

Lemma ApplyEach_nested (l inner : list Argument) (args : Arguments) :
  ApplyEach (l ++ [ApplyEach inner]) args = ApplyEach (l ++ inner) args.
Proof.
  rewrite !ApplyEach_app.
  destruct (ApplyEach l args) as [mid [e|]]; [reflexivity|].
  simpl. now destruct (ApplyEach inner mid) as [x [e|]].
Qed.

(** X12: the loop of [VGReduceOptions.ApplyToArgs] with the loop of
    [CommonOptions.ApplyToArgs] inside it renders, on valid options, the
    eight fields in one fixed order: [RemoveMissing], [VolumeGroupName],
    [PhysicalVolumeNames], [Force], [Devices], [DevicesFile], [Verbose],
    [RequestConfirm], stopping at the first that fails. *)
Theorem X12_vgreduce_renders_eight_fields (F : FieldArguments)
    (opts : VGReduceOptions) (args : Arguments) :
  vgr_VolumeGroupName opts <> "" ->
  vgr_PhysicalVolumeNames opts <> [] \/ vgr_RemoveMissing opts = true ->
  VGReduceOptions_ApplyToArgs F opts args
  = ApplyEach
      [ RemoveMissing_ApplyToArgs F (vgr_RemoveMissing opts);
        VolumeGroupName_ApplyToArgs F (vgr_VolumeGroupName opts);
        PhysicalVolumeNames_ApplyToArgs F (vgr_PhysicalVolumeNames opts);
        Force_ApplyToArgs F (vgr_Force opts);
        Devices_ApplyToArgs F (co_Devices (vgr_CommonOptions opts));
        DevicesFile_ApplyToArgs F (co_DevicesFile (vgr_CommonOptions opts));
        Verbose_ApplyToArgs (co_Verbose (vgr_CommonOptions opts));
        RequestConfirm_ApplyToArgs (co_RequestConfirm (vgr_CommonOptions opts)) ]
      args.
Proof.
  intros Hvg Hsome. unfold VGReduceOptions_ApplyToArgs.
  apply String.eqb_neq in Hvg. rewrite Hvg.
  assert (Hb : Nat.eqb (length (vgr_PhysicalVolumeNames opts)) 0
               && negb (vgr_RemoveMissing opts) = false).
  { destruct Hsome as [Hpv | Hrm].
    - destruct (vgr_PhysicalVolumeNames opts); [contradiction | reflexivity].
    - rewrite Hrm. apply andb_false_r. }
  rewrite Hb. unfold VGReduceOptions_fields, CommonOptions_ApplyToArgs.
  exact (ApplyEach_nested
           [ RemoveMissing_ApplyToArgs F (vgr_RemoveMissing opts);
             VolumeGroupName_ApplyToArgs F (vgr_VolumeGroupName opts);
             PhysicalVolumeNames_ApplyToArgs F (vgr_PhysicalVolumeNames opts);
             Force_ApplyToArgs F (vgr_Force opts) ]
           _ args).
Qed.

Lemma X12_vgreduce_renders_eight_fields_witness :
  VGReduceOptions_ApplyToArgs sampleFieldArguments
    {| vgr_VolumeGroupName := "vg0"; vgr_PhysicalVolumeNames := ["/dev/sdb"];
       vgr_RemoveMissing := false; vgr_Force := true;
       vgr_CommonOptions :=
         {| co_Devices := ["/dev/sdb"; "/dev/sdc"]; co_DevicesFile := "";
            co_Profile := ""; co_Verbose := true; co_RequestConfirm := false |} |}
    ["old"]
  = (["old"; "vg0"; "--force"; "/dev/sdb"; "/dev/sdc"; "--verbose"; "--yes"], None).
Proof.
  rewrite X12_vgreduce_renders_eight_fields.
  - reflexivity.
  - discriminate.
  - left. discriminate.
Defined.

(** X13: a rendering loop returns the error of the first field that fails
    and leaves the argument list as that field left it; the fields after
    it are not rendered, so the outcome does not depend on them. *)
Theorem X13_rendering_stops_at_first_error (before after : list Argument)
    (failing : Argument) (args mid args' : Arguments) (err : string) :
  ApplyEach before args = (mid, None) ->
  failing mid = (args', Some err) ->
  ApplyEach (before ++ failing :: after) args = (args', Some err).
Proof.
  intros Hbefore Hfail. rewrite ApplyEach_app, Hbefore. simpl.
  now rewrite Hfail.
Qed.

Lemma X13_rendering_stops_at_first_error_witness :
  ApplyEach
    [ Verbose_ApplyToArgs true;
      (fun args => (args, Some "no such device"));
      RequestConfirm_ApplyToArgs false ] []
  = (["--verbose"], Some "no such device").
Proof.
  apply (X13_rendering_stops_at_first_error
           [Verbose_ApplyToArgs true] [RequestConfirm_ApplyToArgs false]
           (fun args => (args, Some "no such device")) [] ["--verbose"]);
    reflexivity.
Defined.

(** X14: [Verbose] and [RequestConfirm] cannot fail, so
    [CommonOptions.ApplyToArgs] fails only with the error of [Devices], or,
    when [Devices] succeeds, with that of [DevicesFile]; then neither
    [--verbose] nor [--yes] has been added after the failure, the list is
    as the failing field left it. *)
Theorem X14_CommonOptions_errors (F : FieldArguments) (opts : CommonOptions)
    (args args' : Arguments) (err : string) :
  CommonOptions_ApplyToArgs F opts args = (args', Some err) ->
  Devices_ApplyToArgs F (co_Devices opts) args = (args', Some err) \/
  exists mid,
    Devices_ApplyToArgs F (co_Devices opts) args = (mid, None) /\
    DevicesFile_ApplyToArgs F (co_DevicesFile opts) mid = (args', Some err).
Proof.
  unfold CommonOptions_ApplyToArgs. simpl.
  destruct (Devices_ApplyToArgs F (co_Devices opts) args) as [a1 [e1|]].
  - intros H. left. exact H.
  - destruct (DevicesFile_ApplyToArgs F (co_DevicesFile opts) a1) as [a2 [e2|]] eqn:E2.
    + intros H. right. exists a1. split; [reflexivity|]. rewrite <- H. exact E2.
    + unfold Verbose_ApplyToArgs, RequestConfirm_ApplyToArgs.
      destruct (co_Verbose opts), (co_RequestConfirm opts); simpl; discriminate.
Qed.

Lemma X14_CommonOptions_errors_witness :
  let F := {| VolumeGroupName_ApplyToArgs := VolumeGroupName_ApplyToArgs sampleFieldArguments;
              PhysicalVolumeNames_ApplyToArgs := PhysicalVolumeNames_ApplyToArgs sampleFieldArguments;
              RemoveMissing_ApplyToArgs := RemoveMissing_ApplyToArgs sampleFieldArguments;
              Force_ApplyToArgs := Force_ApplyToArgs sampleFieldArguments;
              Devices_ApplyToArgs := Devices_ApplyToArgs sampleFieldArguments;
              DevicesFile_ApplyToArgs := fun v args => (args, Some "bad devices file") |} in
  Devices_ApplyToArgs F ["/dev/sdb"] [] = (["/dev/sdb"], Some "bad devices file") \/
  exists mid,
    Devices_ApplyToArgs F ["/dev/sdb"] [] = (mid, None) /\
    DevicesFile_ApplyToArgs F "f" mid = (["/dev/sdb"], Some "bad devices file").
Proof.
  intros F.
  exact (X14_CommonOptions_errors F
           {| co_Devices := ["/dev/sdb"]; co_DevicesFile := "f"; co_Profile := "";
              co_Verbose := true; co_RequestConfirm := false |} [] ["/dev/sdb"]
           "bad devices file" eq_refl).
Defined.

(** ** Whole options structs and the client call *)

(** X15: an option that is a whole options struct replaces everything the
    options before it have set: the aggregated struct is that struct with
    the options after it applied, and [AsArgs] gives what it gives for the
    list that starts at that option. *)
Theorem X15_whole_struct_option_resets (F : FieldArguments)
    (before after : VGReduceOptionsList) (opts : VGReduceOptions) :
  aggregate (before ++ [OptVGReduceOptions opts])%list = opts /\
  aggregate (before ++ OptVGReduceOptions opts :: after)%list
  = aggregate (OptVGReduceOptions opts :: after) /\
  AsArgs F (before ++ OptVGReduceOptions opts :: after)%list
  = AsArgs F (OptVGReduceOptions opts :: after).
Proof.
  assert (H : aggregate (before ++ OptVGReduceOptions opts :: after)%list
              = aggregate (OptVGReduceOptions opts :: after)).
  { rewrite aggregate_app. reflexivity. }
  split; [|split].
  - rewrite aggregate_app. reflexivity.
  - exact H.
  - rewrite !AsArgs_asResult. now rewrite H.
Qed.

(** X16: the [VGReduce] call of the client never dereferences a nil
    argument list.  When the aggregated options fail validation it returns
    the validation error without starting the tool: the world is left
    untouched, whatever [RunLVM] would do.  When rendering succeeds it
    starts the tool once, with the context it was given and with
    [vgreduce] followed by the rendered arguments, and returns the tool's
    error. *)
Theorem X16_VGReduce_call (World : Type) (F : FieldArguments)
    (RunLVM : Context -> list string -> World -> error * World)
    (ctx : Context) (opts : VGReduceOptionsList) (w : World) :
  client_VGReduce F RunLVM ctx opts w <> Panicked /\
  (vgr_VolumeGroupName (aggregate opts) = "" ->
   client_VGReduce F RunLVM ctx opts w = Returned (Some errVolumeGroupNameRequired) w) /\
  (vgr_VolumeGroupName (aggregate opts) <> "" ->
   vgr_PhysicalVolumeNames (aggregate opts) = [] ->
   vgr_RemoveMissing (aggregate opts) = false ->
   client_VGReduce F RunLVM ctx opts w = Returned (Some errPhysicalVolumeNameRequired) w) /\
  (forall args,
     AsArgs F opts = (Some args, None) ->
     client_VGReduce F RunLVM ctx opts w
     = Returned (fst (RunLVM ctx ("vgreduce" :: GetRaw args) w))
                (snd (RunLVM ctx ("vgreduce" :: GetRaw args) w))).
Proof.
  unfold client_VGReduce. rewrite AsArgs_asResult.
  unfold VGReduceOptions_ApplyToArgs.
  split; [|split; [|split]].
  - match goal with
    | |- context [asResult ?r] => destruct r as [a [e|]]
    end; simpl; [discriminate|].
    destruct (RunLVM ctx ("vgreduce" :: GetRaw a) w); discriminate.
  - intros Hvg. rewrite Hvg. reflexivity.
  - intros Hvg Hpv Hrm. apply String.eqb_neq in Hvg.
    rewrite Hvg, Hpv, Hrm. reflexivity.
  - intros args H. rewrite H.
    now destruct (RunLVM ctx ("vgreduce" :: GetRaw args) w).
Qed.

Lemma X16_VGReduce_call_witness :
  client_VGReduce sampleFieldArguments
    (fun ctx argv (log : list (list string)) => (None, (log ++ [argv])%list))
    Background [OptPhysicalVolumeNames ["/dev/sdb"]] []
  = Returned (Some errVolumeGroupNameRequired) [] /\
  client_VGReduce sampleFieldArguments
    (fun ctx argv (log : list (list string)) => (None, (log ++ [argv])%list))
    Background [OptVolumeGroupName "vg0"; OptPhysicalVolumeNames ["/dev/sdb"]] []
  = Returned None [["vgreduce"; "vg0"; "/dev/sdb"; "--yes"]].
Proof.
  split.
  - apply (X16_VGReduce_call (list (list string)) sampleFieldArguments
             (fun ctx argv log => (None, (log ++ [argv])%list))
             Background [OptPhysicalVolumeNames ["/dev/sdb"]] []).
    reflexivity.
  - apply (X16_VGReduce_call (list (list string)) sampleFieldArguments
             (fun ctx argv log => (None, (log ++ [argv])%list))
             Background [OptVolumeGroupName "vg0"; OptPhysicalVolumeNames ["/dev/sdb"]] []
             ).
    reflexivity.
Defined.

(** ** What [WillUseNsenter] announces *)

(** X17: [WillUseNsenter] tells what [CommandContext] does with the same
    context in the same state: it answers [true] exactly when the built
    command is [/usr/bin/nsenter] with the namespace arguments and the
    command in front of the given arguments, [false] exactly when the
    built command is the given command with the given arguments, and both
    leave the package in the same state. *)
Theorem X17_WillUseNsenter_predicts_CommandContext (h : Host) (ctx : Context)
    (cmd : string) (args : list string) (g : Globals) :
  let c := fst (CommandContext h ctx cmd args g) in
  (fst (WillUseNsenter h ctx g) = true <->
   cmd_name c = "/usr/bin/nsenter" /\
   cmd_arg c = (["-m"; "-u"; "-i"; "-n"; "-p"; "-t"; "1"; cmd] ++ args)%list) /\
  (fst (WillUseNsenter h ctx g) = false <-> cmd_arg c = args) /\
  (fst (WillUseNsenter h ctx g) = false -> cmd_name c = cmd) /\
  snd (WillUseNsenter h ctx g) = snd (CommandContext h ctx cmd args g).
Proof.
  intros c.
  pose proof (CommandContext_operands h ctx cmd args g) as H. cbv zeta in H.
  fold c in H.
  assert (Hst : snd (WillUseNsenter h ctx g) = snd (CommandContext h ctx cmd args g)).
  { unfold WillUseNsenter, CommandContext.
    destruct (IsContainerized h ctx g) as [b g']. reflexivity. }
  assert (Hw : fst (WillUseNsenter h ctx g)
               = fst (IsContainerized h ctx g) && negb (shouldForceNoNsenter ctx)).
  { unfold WillUseNsenter. destruct (IsContainerized h ctx g) as [b g']. reflexivity. }
  rewrite Hw.
  pose proof (f_equal fst H) as Hn. pose proof (f_equal snd H) as Ha.
  clear H.
  destruct (fst (IsContainerized h ctx g) && negb (shouldForceNoNsenter ctx));
    simpl in Hn, Ha.
  - split; [|split; [|split]]; [tauto | | discriminate | exact Hst].
    split; [discriminate|]. intros Hargs. rewrite Hargs in Ha.
    apply (f_equal (@List.length string)) in Ha.
    unfold nsenterArgs in Ha. simpl in Ha. lia.
  - split; [|split; [|split]]; [ | tauto | tauto | exact Hst].
    split; [discriminate|]. intros [_ Hargs]. rewrite Hargs in Ha.
    apply (f_equal (@List.length string)) in Ha. simpl in Ha. lia.
Qed.

Lemma X17_WillUseNsenter_predicts_CommandContext_witness :
  cmd_name (fst (CommandContext (mkHost false false false true)
                   (WithForceNoNsenter Background true) "lvm" ["vgs"] initial))
  = "lvm".
Proof.
  destruct (X17_WillUseNsenter_predicts_CommandContext (mkHost false false false true)
              (WithForceNoNsenter Background true) "lvm" ["vgs"] initial)
    as (_ & _ & H & _).
  apply H. reflexivity.
Defined.

(** ** Test scaffolding *)

(** X18: [LogicalVolumeName()] of a test logical volume is the first name
    among its options, whatever names follow it, and the empty name when
    the options hold no name at all. *)
Theorem X18_LogicalVolumeName_first (before after : list LVCreateOption) (name : string) :
  forallb (fun opt => negb (isLVName opt)) before = true ->
  LogicalVolumeName {| Options := (before ++ LVName name :: after)%list |} = name /\
  LogicalVolumeName {| Options := before |} = "".
Proof.
  unfold LogicalVolumeName. simpl.
  induction before as [|opt before IH]; simpl; intros H; [split; reflexivity|].
  destruct opt as [n|t]; simpl in H; [discriminate H|].
  apply IH, H.
Qed.

Lemma X18_LogicalVolumeName_first_witness :
  LogicalVolumeName {| Options := [LVOther 0; LVName "lv0"; LVOther 1; LVName "lv1"] |}
  = "lv0".
Proof.
  exact (proj1 (X18_LogicalVolumeName_first [LVOther 0] [LVOther 1; LVName "lv1"] "lv0"
                  eq_refl)).
Defined.
